(** * SoundSense / Audible Insights: the recommendation engine of [app.py]

    A shallow embedding of [load_data], [build_model], [recommend_by_book],
    [hidden_gems] and [main], and the properties of the engine proved on it.

    Conventions.
    - A pandas DataFrame is a list of column names and a list of labelled
      rows; a row maps a column name to a cell.  The label is the entry of
      [df.index] for that row.
    - A finite float64 value is the rational it denotes; the two infinities
      and [NaN] are cells of their own.  Every comparison with [NaN] is
      false, as in pandas.
    - Streamlit calls are recorded in order in the list of elements a
      function has shown; [st.stop()] and Python exceptions end the run.
    - Calls into pandas' parser, pandas' default sort and scikit-learn are
      parameters of the sections that use them.
    - [lower] is [str.lower] on text in ASCII; it leaves every other
      character as it is. *)

From Stdlib Require Import List String Ascii Bool Arith Lia.
From Stdlib Require Import QArith Qround Permutation Sorted.
From Stdlib Require Reals Lra OrdersEx.
From Corelib Require PrimFloat.
Import ListNotations.

Open Scope string_scope.
Open Scope Q_scope.
Open Scope nat_scope.
Open Scope list_scope.

(** ** Strings *)

(** [c.lower()] on one character (ASCII letters). *)
Definition lower_ascii (c : ascii) : ascii :=
  let n := nat_of_ascii c in
  if (65 <=? n) && (n <=? 90) then ascii_of_nat (n + 32) else c.

(** [s.lower()]. *)
Fixpoint lower (s : string) : string :=
  match s with
  | EmptyString => EmptyString
  | String c t => String (lower_ascii c) (lower t)
  end.

(** [sub in s] for two strings. *)
Fixpoint str_in (sub s : string) : bool :=
  String.prefix sub s ||
  match s with
  | EmptyString => false
  | String _ t => str_in sub t
  end.

(** ** Cells and frames *)

Inductive cell : Type :=
| NaN
| Str (s : string)
| Num (q : Q)
| Inf (negative : bool).

Definition row : Type := string -> cell.

Record DataFrame : Type := mkDF {
  columns : list string;
  rows : list (nat * row)
}.

Definition isna (c : cell) : bool :=
  match c with NaN => true | _ => false end.

(** Equality of two cells as [drop_duplicates] sees it (missing values are
    equal to each other). *)
Definition cell_eqb (a b : cell) : bool :=
  match a, b with
  | NaN, NaN => true
  | Str s, Str t => String.eqb s t
  | Num x, Num y => Qeq_bool x y
  | Inf m, Inf n => Bool.eqb m n
  | _, _ => false
  end.

(** [c >= q] and [c <= q] for a float cell [c]; false on a missing value. *)
Definition cell_ge (c : cell) (q : Q) : bool :=
  match c with
  | Num x => Qle_bool q x
  | Inf negative => negb negative
  | _ => false
  end.

Definition cell_le (c : cell) (q : Q) : bool :=
  match c with
  | Num x => Qle_bool x q
  | Inf negative => negative
  | _ => false
  end.

(** [df.index] and [len(df)]. *)
Definition index (df : DataFrame) : list nat := map fst (rows df).
Definition len (df : DataFrame) : nat := List.length (rows df).

(** [df[name] = f(row)]: overwrite the column, or append it. *)
Definition assign (name : string) (f : row -> cell) (df : DataFrame) : DataFrame :=
  {| columns := if existsb (String.eqb name) (columns df)
                then columns df else columns df ++ [name];
     rows := map (fun r => (fst r, fun c => if String.eqb c name then f (snd r) else snd r c))
                 (rows df) |}.

(** [df.dropna(subset=[name])]. *)
Definition dropna (name : string) (df : DataFrame) : DataFrame :=
  {| columns := columns df;
     rows := filter (fun r => negb (isna (snd r name))) (rows df) |}.

(** Two rows agree on the columns of [subset]. *)
Definition same_on (subset : list string) (a b : row) : bool :=
  forallb (fun c => cell_eqb (a c) (b c)) subset.

(** The rows of [l] that agree on [subset] with no row of [seen] and with no
    earlier row of [l]: the first occurrence of each key is kept. *)
Fixpoint keep_first (subset : list string) (seen : list row) (l : list (nat * row))
  : list (nat * row) :=
  match l with
  | [] => []
  | r :: t =>
      if existsb (same_on subset (snd r)) seen
      then keep_first subset seen t
      else r :: keep_first subset (snd r :: seen) t
  end.

(** [df.drop_duplicates(subset=subset)]. *)
Definition drop_duplicates (subset : list string) (df : DataFrame) : DataFrame :=
  {| columns := columns df; rows := keep_first subset [] (rows df) |}.

(** [df.reset_index(drop=True)]. *)
Definition reset_index (df : DataFrame) : DataFrame :=
  {| columns := columns df;
     rows := combine (seq 0 (len df)) (map snd (rows df)) |}.

(** [df.loc[i]]: the row labelled [i]. *)
Definition loc (df : DataFrame) (i : nat) : option row :=
  option_map snd (find (fun r => Nat.eqb (fst r) i) (rows df)).

(** ** Streamlit *)

Inductive element : Type :=
| st_error (msg : string)
| st_warning (msg : string)
| st_info (msg : string)
| st_subheader (msg : string)
| st_markdown (msg : string)
| st_metric (label : string) (value : cell)
| st_found (count : nat) (min_rating max_reviews : Q)
| st_book_card (title author rating : cell)
| st_dataframe (cols : list string) (table : list (nat * list cell)).

Inductive status : Type :=
| Returned
| Stopped
| Raised (exn : string).

Definition run : Type := (list element * status)%type.

(** [df.loc[idxs, cols]] and [df[cols]] as the table that is displayed. *)
Definition project (cols : list string) (r : nat * row) : nat * list cell :=
  (fst r, map (snd r) cols).

(** Truth value of a column name that may be [None]. *)
Definition truthy (o : option string) : bool :=
  match o with
  | Some s => negb (String.eqb s EmptyString)
  | None => false
  end.

(** ** Data loading and cleaning *)

Inductive loaded : Type :=
| LoadStopped (shown : list element)
| Loaded (df : DataFrame) (reviews_col : option string).

(** The first column whose lower-cased name contains [word]. *)
Definition detect (word : string) (df : DataFrame) : option string :=
  find (fun c => str_in word (lower c)) (columns df).

(** A number as [pd.to_numeric] reads it: finite, or an infinity (as for
    the text "inf", or for a literal too large for a float64). *)
Inductive number : Type :=
| Finite (q : Q)
| Infinite (negative : bool).

Section Loading.

(** What [pd.to_numeric] reads in a string; [None] when it does not parse. *)
Variable parse_number : string -> option number.

(** [pd.to_numeric] with [errors] set to coerce, on one cell. *)
Definition to_numeric (c : cell) : cell :=
  match c with
  | NaN => NaN
  | Num q => Num q
  | Inf negative => Inf negative
  | Str s =>
      match parse_number s with
      | Some (Finite q) => Num q
      | Some (Infinite negative) => Inf negative
      | None => NaN
      end
  end.

(** [_.fillna] with the empty string, on one cell. *)
Definition fillna_empty (c : cell) : cell :=
  match c with NaN => Str EmptyString | _ => c end.

(** The three clean-up lines at the end of [load_data]. *)
Definition clean (df : DataFrame) : DataFrame :=
  reset_index (drop_duplicates ["Book Name"; "Author"] (dropna "Rating" df)).

(** [load_data], from the merged frame on. *)
Definition load_data (df : DataFrame) : loaded :=
  match detect "rating" df with
  | None => LoadStopped [st_error "Rating column not found."]
  | Some rating_col =>
      let df := assign "Rating" (fun r => to_numeric (r rating_col)) df in
      let desc_col := detect "desc" df in
      let df :=
        if truthy desc_col
        then match desc_col with
             | Some d => assign "Description" (fun r => fillna_empty (r d)) df
             | None => df
             end
        else assign "Description" (fun _ => Str EmptyString) df in
      let reviews_col := detect "review" df in
      let df :=
        if truthy reviews_col
        then match reviews_col with
             | Some c => assign "Reviews" (fun r => to_numeric (r c)) df
             | None => df
             end
        else df in
      Loaded (clean df) reviews_col
  end.

End Loading.

(** ** Model building *)

(** A pandas Series: labels and values, in order, labels may repeat. *)
Definition Series : Type := list (cell * nat).

(** [_.str.lower()] on one cell of a column of strings; a missing value
    stays missing. *)
Definition str_lower (c : cell) : cell :=
  match c with Str s => Str (lower s) | _ => NaN end.

(** [Series.drop_duplicates()]: an entry is dropped when its VALUE was seen
    before; the labels play no part. *)
Fixpoint keep_first_value (seen : list nat) (s : Series) : Series :=
  match s with
  | [] => []
  | e :: t =>
      if existsb (Nat.eqb (snd e)) seen
      then keep_first_value seen t
      else e :: keep_first_value (snd e :: seen) t
  end.

Definition series_drop_duplicates (s : Series) : Series := keep_first_value [] s.

(** [pd.Series(df.index, index=df["Book Name"].str.lower()).drop_duplicates()] *)
Definition title_index (df : DataFrame) : Series :=
  series_drop_duplicates
    (combine (map (fun r => str_lower (snd r "Book Name")) (rows df)) (index df)).

(** [key in indices]: a test on the labels. *)
Definition contains (indices : Series) (key : string) : bool :=
  existsb (fun e => cell_eqb (fst e) (Str key)) indices.

(** [indices[key]]: the value when the label occurs once, the sub-series of
    all its values when it occurs several times. *)
Inductive lookup : Type :=
| KeyError
| Scalar (i : nat)
| SubSeries (l : list nat).

Definition getitem (indices : Series) (key : string) : lookup :=
  match map snd (filter (fun e => cell_eqb (fst e) (Str key)) indices) with
  | [] => KeyError
  | [i] => Scalar i
  | l => SubSeries l
  end.

(** What [build_model] returns, or the exception it ends with. *)
Inductive built : Type :=
| BuildRaised (exn : string)
| Built (cosine_sim : list (list Q)) (indices : Series).

Definition is_str (c : cell) : bool :=
  match c with Str _ => true | _ => false end.

Section Building.

(** The terms that the vectorizer finds in one document: its lower-cased
    words of two characters or more that are no English stop words. *)
Variable tokens : string -> list string.

(** [cosine_similarity(TfidfVectorizer(...).fit_transform(_))] on the
    description column, as the matrix of its entries (each the rational its
    float64 denotes).  The queries only compare these entries; what
    scikit-learn computes is the subject of [Cosine] and [Cosine64] below. *)
Variable similarity : list cell -> list (list Q).

(** No document has a term: [fit_transform] then raises a ValueError
    ("empty vocabulary"). *)
Definition empty_vocabulary (docs : list cell) : bool :=
  forallb (fun d => match d with
                    | Str s => match tokens s with [] => true | _ => false end
                    | _ => true
                    end) docs.

(** [build_model]: the vectorizer lower-cases each document, which fails on
    a description that is not a string, and refuses a corpus with no term. *)
Definition build_model (df : DataFrame) : built :=
  let docs := map (fun r => snd r "Description") (rows df) in
  if negb (forallb is_str docs) then BuildRaised "AttributeError"
  else if empty_vocabulary docs then BuildRaised "ValueError"
  else Built (similarity docs) (title_index df).

End Building.

(** ** Recommend by book *)

Definition enumerate {A : Type} (l : list A) : list (nat * A) :=
  combine (seq 0 (List.length l)) l.

(** One step of [sorted(_, key=lambda x: x[1], reverse=True)]: [x] goes in
    front of the first entry whose score is not above its own. *)
Fixpoint insert_desc (x : nat * Q) (l : list (nat * Q)) : list (nat * Q) :=
  match l with
  | [] => [x]
  | y :: t =>
      if Qle_bool (snd y) (snd x) then x :: y :: t else y :: insert_desc x t
  end.

(** [sorted(_, key=lambda x: x[1], reverse=True)]: descending by score, and
    stable: entries of equal score keep their order. *)
Definition sorted_desc (l : list (nat * Q)) : list (nat * Q) :=
  fold_right insert_desc [] l.

(** [[(i, s) for (i, s) in l if df.loc[i, "Rating"] >= min_rating]];
    [None] when some [i] is not a label of [df] (a KeyError). *)
Fixpoint rated (df : DataFrame) (min_rating : Q) (l : list (nat * Q))
  : option (list (nat * Q)) :=
  match l with
  | [] => Some []
  | e :: t =>
      match loc df (fst e) with
      | None => None
      | Some r =>
          match rated df min_rating t with
          | None => None
          | Some t' =>
              Some (if cell_ge (r "Rating") min_rating then e :: t' else t')
          end
      end
  end.

(** What pressing the button computes before anything is shown. *)
Inductive outcome : Type :=
| NotFound
| Failed (exn : string)
| Results (idx : nat) (results : list (nat * Q)).

Definition recommend (df : DataFrame) (cosine_sim : list (list Q)) (indices : Series)
    (min_rating : Q) (selected_book : string) : outcome :=
  let key := lower selected_book in
  if negb (contains indices key) then NotFound
  else
    match getitem indices key with
    | KeyError => Failed "KeyError"
    | SubSeries l =>
        (* [cosine_sim[idx]] is then a block of rows, and [sorted] has to
           order whole rows: numpy refuses the truth value of the comparison *)
        if forallb (fun i => i <? List.length cosine_sim) l
        then Failed "ValueError" else Failed "IndexError"
    | Scalar idx =>
        match nth_error cosine_sim idx with
        | None => Failed "IndexError"
        | Some scores =>
            let sim_scores := sorted_desc (enumerate scores) in
            match rated df min_rating (tl sim_scores) with
            | None => Failed "KeyError"
            | Some passed => Results idx (firstn 5 passed)
            end
        end
    end.

Definition card (r : row) : element :=
  st_book_card (r "Book Name") (r "Author") (r "Rating").

(** [df.loc[idxs, cols]]; [None] when a label is missing. *)
Fixpoint loc_table (df : DataFrame) (cols : list string) (idxs : list nat)
  : option (list (nat * list cell)) :=
  match idxs with
  | [] => Some []
  | i :: t =>
      match loc df i, loc_table df cols t with
      | Some r, Some t' => Some (project cols (i, r) :: t')
      | _, _ => None
      end
  end.

(** [recommend_by_book]; [selected_book] is what the select box returned and
    [clicked] whether the button was pressed. *)
Definition recommend_by_book (df : DataFrame) (cosine_sim : list (list Q))
    (indices : Series) (min_rating : Q) (selected_book : string) (clicked : bool) : run :=
  let head := [st_subheader "Recommend by Book"] in
  if negb clicked then (head, Returned)
  else
    match recommend df cosine_sim indices min_rating selected_book with
    | NotFound => (head ++ [st_error "Book not found."], Returned)
    | Failed exn => (head, Raised exn)
    | Results idx [] =>
        (head ++ [st_warning "No similar books found with this rating filter."], Returned)
    | Results idx results =>
        let idxs := map fst results in
        match loc df idx, loc_table df ["Book Name"; "Author"; "Rating"] idxs with
        | Some seed, Some table =>
            (head ++ [st_markdown "### Selected Book"; card seed;
                      st_markdown "### Recommended Books";
                      st_dataframe ["Book Name"; "Author"; "Rating"] table], Returned)
        | None, _ => (head ++ [st_markdown "### Selected Book"], Raised "KeyError")
        | Some seed, None =>
            (head ++ [st_markdown "### Selected Book"; card seed;
                      st_markdown "### Recommended Books"], Raised "KeyError")
        end
    end.

(** ** Hidden gems *)

(** The row mask of [hidden_gems]. *)
Definition is_gem (max_reviews min_rating : Q) (r : nat * row) : bool :=
  cell_le (snd r "Reviews") max_reviews && cell_ge (snd r "Rating") min_rating.

(** Rating order of two rows for a descending sort (missing values last). *)
Definition rating_geb (a b : nat * row) : bool :=
  match snd a "Rating", snd b "Rating" with
  | Num x, Num y => Qle_bool y x
  | Inf negative, Num _ => negb negative
  | Num _, Inf negative => negative
  | Inf m, Inf n => negb m || n
  | _, Num _ => false
  | _, Inf _ => false
  | _, _ => true
  end.

Section Gems.

(** [_.sort_values("Rating", ascending=False)] on the rows of a frame, with
    pandas' default sort kind. *)
Variable sort_values : list (nat * row) -> list (nat * row).

(** The frame [gems] of [hidden_gems]. *)
Definition gems (df : DataFrame) (max_reviews min_rating : Q) : list (nat * row) :=
  sort_values (filter (is_gem max_reviews min_rating) (rows df)).

Definition hidden_gems (df : DataFrame) (reviews_col : option string)
    (max_reviews min_rating : Q) : run :=
  let head := [st_subheader "Hidden Gems"] in
  if negb (truthy reviews_col) || negb (existsb (String.eqb "Reviews") (columns df))
  then (head ++ [st_info "Review count not available in this dataset."], Returned)
  else
    let g := gems df max_reviews min_rating in
    (head ++ [st_found (List.length g) min_rating max_reviews;
              st_dataframe ["Book Name"; "Author"; "Rating"; "Reviews"]
                (map (project ["Book Name"; "Author"; "Rating"; "Reviews"]) (firstn 20 g))],
     Returned).

End Gems.

(** ** The application *)

Inductive Page : Type := Recommendation | HiddenGems | About.

(** What the widgets return in one run of the script. *)
Record Widgets : Type := mkWidgets {
  page : Page;
  global_rating : Q;
  selected_book : string;
  clicked : bool;
  max_reviews : Q;
  gems_min_rating : Q
}.

(** The sum of two floats; opposite infinities give [NaN]. *)
Definition add_float (a b : cell) : cell :=
  match a, b with
  | Num x, Num y => Num (x + y)%Q
  | Inf n, Num _ => Inf n
  | Num _, Inf n => Inf n
  | Inf m, Inf n => if Bool.eqb m n then Inf m else NaN
  | _, _ => NaN
  end.

(** Sum, count and mean of the numbers of a column (missing values
    skipped). *)
Definition col_sum (name : string) (df : DataFrame) : cell :=
  fold_right (fun r acc => match snd r name with
                           | Num q => add_float (Num q) acc
                           | Inf n => add_float (Inf n) acc
                           | _ => acc
                           end)
             (Num 0) (rows df).

Definition col_count (name : string) (df : DataFrame) : nat :=
  List.length (filter (fun r => match snd r name with
                                | Num _ => true
                                | Inf _ => true
                                | _ => false
                                end) (rows df)).

Definition col_mean (name : string) (df : DataFrame) : cell :=
  match col_count name df with
  | O => NaN
  | S n =>
      match col_sum name df with
      | Num total => Num (total / inject_Z (Z.of_nat (S n)))%Q
      | other => other
      end
  end.

(** [int(x)]: truncation towards zero; an infinity and [NaN] are refused. *)
Definition int_of (x : cell) : cell + string :=
  match x with
  | Num q => inl (Num (inject_Z (Z.quot (Qnum q) (Zpos (Qden q)))))
  | Inf _ => inr "OverflowError"
  | _ => inr "ValueError"
  end.

Section App.

Variable parse_number : string -> option number.
Variable tokens : string -> list string.
Variable similarity : list cell -> list (list Q).
Variable sort_values : list (nat * row) -> list (nat * row).

(** The page chosen in the side bar. *)
Definition show_page (df : DataFrame) (reviews_col : option string)
    (cosine_sim : list (list Q)) (indices : Series) (w : Widgets) : run :=
  match page w with
  | Recommendation =>
      recommend_by_book df cosine_sim indices (global_rating w)
                        (selected_book w) (clicked w)
  | HiddenGems =>
      hidden_gems sort_values df reviews_col (max_reviews w) (gems_min_rating w)
  | About =>
      ([st_subheader "About";
        st_markdown "This project demonstrates a content-based audiobook recommendation system."],
       Returned)
  end.

Definition main (merged : DataFrame) (w : Widgets) : run :=
  match load_data parse_number merged with
  | LoadStopped shown => (shown, Stopped)
  | Loaded df reviews_col =>
      match build_model tokens similarity df with
      | BuildRaised exn => ([], Raised exn)
      | Built cosine_sim indices =>
          let head :=
            [st_markdown "Audible Insights";
             st_metric "Books" (Num (inject_Z (Z.of_nat (len df))));
             st_metric "Average Rating" (col_mean "Rating" df)] in
          let total :=
            if existsb (String.eqb "Reviews") (columns df)
            then int_of (col_sum "Reviews" df) else inl (Str "N/A") in
          match total with
          | inr exn => (head, Raised exn)
          | inl reviews =>
              let body := show_page df reviews_col cosine_sim indices w in
              (head ++ st_metric "Total Reviews" reviews :: fst body, snd body)
          end
      end
  end.

End App.

(** ** Cosine similarity in exact arithmetic

    [sklearn.metrics.pairwise.cosine_similarity(X)] scales every row of [X]
    to Euclidean length one (a row whose squares sum to zero is left as it
    is) and returns the products of the scaled rows with each other.  The
    rows of [X] are the tf-idf vectors of the descriptions; here their
    entries are real numbers and the arithmetic is exact. *)

Module Cosine.
Import Reals Lra.
Local Open Scope R_scope.

Definition vec : Type := list R.

Fixpoint dot (x y : vec) : R :=
  match x, y with
  | a :: x', b :: y' => a * b + dot x' y'
  | _, _ => 0
  end.

Definition normalize_row (x : vec) : vec :=
  if Req_dec_T (dot x x) 0 then x
  else map (fun a => a / sqrt (dot x x)) x.

Definition normalize (X : list vec) : list vec := map normalize_row X.

(** [X @ Y.T] *)
Definition gram (X Y : list vec) : list (list R) :=
  map (fun x => map (fun y => dot x y) Y) X.

Definition cosine_similarity (X : list vec) : list (list R) :=
  gram (normalize X) (normalize X).

(** [S[i][j]] *)
Definition entry (S : list (list R)) (i j : nat) : R :=
  nth j (nth i S []) 0.

(** The vector has no non-zero component. *)
Definition zero_vector (x : vec) : Prop := Forall (fun a => a = 0) x.

End Cosine.

(** ** Cosine similarity in float64

    The same function with the arithmetic of the code: every sum, product,
    quotient and square root is rounded to float64.  The sums run from the
    left over the entries of a row, as the loops of the library do.
    [TfidfTransformer] scales each row of weights with the same [normalize]
    before [cosine_similarity] scales it again. *)

Module Cosine64.
Import PrimFloat.
Local Open Scope float_scope.

Definition vec : Type := list float.

Fixpoint dot_from (acc : float) (x y : vec) : float :=
  match x, y with
  | a :: x', b :: y' => dot_from (acc + a * b) x' y'
  | _, _ => acc
  end.

Definition dot (x y : vec) : float := dot_from 0 x y.

Definition normalize_row (x : vec) : vec :=
  if eqb (dot x x) 0 then x
  else map (fun a => a / sqrt (dot x x)) x.

Definition normalize (X : list vec) : list vec := map normalize_row X.

Definition gram (X Y : list vec) : list (list float) :=
  map (fun x => map (fun y => dot x y) Y) X.

Definition cosine_similarity (X : list vec) : list (list float) :=
  gram (normalize X) (normalize X).

Definition entry (S : list (list float)) (i j : nat) : float :=
  nth j (nth i S []) 0.

(** Two books described as "spy thriller": each has one "spy" and one
    "thriller", both terms are in every document, so every inverse document
    frequency is ln(3/3) + 1 = 1 and every weight is 1 before the scaling. *)
Definition spy_thrillers : list vec := normalize [[1; 1]; [1; 1]].

(** 1, and the float64 next above it, 1.0000000000000002. *)
Definition one : float := 1.
Definition next_above_one : float := 0x1.0000000000001p+0.

End Cosine64.

(** ** Properties named by the statements below *)

(** [df.loc[i, "Rating"] >= min_rating], false when [i] is no label. *)
Definition rating_ok (df : DataFrame) (min_rating : Q) (i : nat) : bool :=
  match loc df i with
  | Some r => cell_ge (r "Rating") min_rating
  | None => false
  end.

(** Descending order of scores. *)
Definition score_ge (a b : nat * Q) : Prop := (snd b <= snd a)%Q.

(** The cell is a float, finite or infinite, that is at least [q]; at most
    [q]. *)
Definition at_least (c : cell) (q : Q) : Prop :=
  match c with
  | Num x => (q <= x)%Q
  | Inf negative => negative = false
  | _ => False
  end.

Definition at_most (c : cell) (q : Q) : Prop :=
  match c with
  | Num x => (x <= q)%Q
  | Inf negative => negative = true
  | _ => False
  end.

(** Both cells are floats, finite or infinite, and the first is at most the
    second. *)
Definition float_le (c d : cell) : Prop :=
  match c, d with
  | Num x, Num y => (x <= y)%Q
  | Inf negative, Num _ => negative = true
  | Num _, Inf negative => negative = false
  | Inf m, Inf n => m = true \/ n = false
  | _, _ => False
  end.

(** The cell is a float, finite or infinite: it is not missing. *)
Definition is_float (c : cell) : Prop :=
  match c with
  | Num _ => True
  | Inf _ => True
  | _ => False
  end.

(** Descending order of ratings, both present. *)
Definition rating_ge (a b : nat * row) : Prop :=
  float_le (snd b "Rating") (snd a "Rating").

(** The row passes the two thresholds of the hidden gems query. *)
Definition within (max_reviews min_rating : Q) (r : nat * row) : Prop :=
  at_most (snd r "Reviews") max_reviews /\ at_least (snd r "Rating") min_rating.

(** Every character of the string is in ASCII. *)
Fixpoint is_ascii (s : string) : bool :=
  match s with
  | EmptyString => true
  | String c t => (nat_of_ascii c <? 128) && is_ascii t
  end.

(** The title of the row is text in ASCII, when it is a string. *)
Definition ascii_title (r : nat * row) : Prop :=
  match snd r "Book Name" with
  | Str s => is_ascii s = true
  | _ => True
  end.

(** What the documentation of [sort_values] promises for a descending sort
    on the rating: the same rows, in an order where no row is followed by
    one of a higher rating (rows with no rating last). *)
Definition sorts_by_rating (sort : list (nat * row) -> list (nat * row)) : Prop :=
  forall l, Permutation (sort l) l /\
            StronglySorted (fun a b => rating_geb a b = true) (sort l).

(** Rows of equal rating come in ascending order of their labels. *)
Definition ties_in_row_order (g : list (nat * row)) : Prop :=
  forall i j a b,
    i < j -> nth_error g i = Some a -> nth_error g j = Some b ->
    rating_geb a b = true -> rating_geb b a = true -> fst a < fst b.

(** A descending sort that puts a row behind the rows of the same rating
    already placed. *)
Fixpoint insert_behind (x : nat * row) (l : list (nat * row)) : list (nat * row) :=
  match l with
  | [] => [x]
  | y :: t => if rating_geb y x then y :: insert_behind x t else x :: y :: t
  end.

Definition sort_behind (l : list (nat * row)) : list (nat * row) :=
  fold_right insert_behind [] l.

(** No two rows of the list agree on the columns of [subset]. *)
Definition distinct_on (subset : list string) (l : list (nat * row)) : Prop :=
  ForallOrdPairs (fun a b => same_on subset (snd a) (snd b) = false) l.

(** ** The select box of [recommend_by_book] *)

(** The cells of a column when all of them are strings. *)
Fixpoint strings_of (l : list cell) : option (list string) :=
  match l with
  | [] => Some []
  | Str s :: t => option_map (cons s) (strings_of t)
  | _ :: _ => None
  end.

(** [df["Book Name"]] for a column of strings. *)
Definition book_names (df : DataFrame) : option (list string) :=
  strings_of (map (fun r => snd r "Book Name") (rows df)).

(** [_.unique()]: the values in order of first appearance. *)
Fixpoint unique (seen : list string) (l : list string) : list string :=
  match l with
  | [] => []
  | x :: t =>
      if existsb (String.eqb x) seen then unique seen t
      else x :: unique (x :: seen) t
  end.

(** [a <= b] on two strings, character by character. *)
Definition str_le (a b : string) : bool :=
  match OrdersEx.String_as_OT.compare a b with
  | Gt => false
  | _ => true
  end.

Fixpoint insert_str (x : string) (l : list string) : list string :=
  match l with
  | [] => [x]
  | y :: t => if str_le x y then x :: y :: t else y :: insert_str x t
  end.

(** [sorted(_)] on a list of strings. *)
Definition sorted_str (l : list string) : list string :=
  fold_right insert_str [] l.

(** The list handed to the select box: the sorted distinct titles, narrowed
    to those that contain the search text (in any case) when the search text
    is not empty and some title contains it. *)
Definition book_list (names : list string) (search : string) : list string :=
  let all := sorted_str (unique [] names) in
  if negb (String.eqb search EmptyString)
  then match filter (fun b => str_in (lower search) (lower b)) all with
       | [] => all
       | found => found
       end
  else all.

(** [r] is the first row of [l] with its values on the columns of
    [subset]. *)
Definition first_with (subset : list string) (l : list (nat * row)) (r : row) : Prop :=
  exists pre r0 post,
    l = pre ++ r0 :: post /\ snd r0 = r /\
    Forall (fun p => same_on subset r (snd p) = false) pre.

(** ** Sample data *)

(** A row given by its non-missing cells. *)
Definition mk_row (cells : list (string * cell)) : row :=
  fun c =>
    match find (fun e => String.eqb (fst e) c) cells with
    | Some e => snd e
    | None => NaN
    end.

Definition book (title author : string) (rating : cell) (desc : cell) (reviews : cell) : row :=
  mk_row [("Book Name", Str title); ("Author", Str author); ("Rating_x", rating);
          ("Description", desc); ("Number of Reviews", reviews)].

Definition sample_columns : list string :=
  ["Book Name"; "Author"; "Rating_x"; "Description"; "Number of Reviews"].

(** A digit string read as a number, anything else refused. *)
Fixpoint digits (s : string) (acc : Z) : option Z :=
  match s with
  | EmptyString => Some acc
  | String c t =>
      let n := nat_of_ascii c in
      if (48 <=? n) && (n <=? 57)
      then digits t (10 * acc + Z.of_nat (n - 48))%Z
      else None
  end.

Definition parse_digits (s : string) : option number :=
  if String.eqb s "inf" then Some (Infinite false)
  else if String.eqb s "-inf" then Some (Infinite true)
  else match s with
       | EmptyString => None
       | _ => option_map (fun z => Finite (inject_Z z)) (digits s 0%Z)
       end.

(** The words of a text that have two characters or more, split at the
    spaces: a plain stand-in for the vectorizer's analyzer. *)
Fixpoint words_from (word : string) (s : string) : list string :=
  match s with
  | EmptyString => if 2 <=? String.length word then [word] else []
  | String c t =>
      if Ascii.eqb c " "
      then (if 2 <=? String.length word then [word] else []) ++ words_from EmptyString t
      else words_from (word ++ String c EmptyString) t
  end.

Definition words (s : string) : list string := words_from EmptyString s.

(** Three books; the second has no description. *)
Definition shelf : DataFrame :=
  {| columns := sample_columns;
     rows := [(0, book "Alpha" "Ann" (Num 4.0) (Str "a spy thriller") (Num 10));
              (1, book "Beta" "Bob" (Num 4.8) NaN (Num 60));
              (2, book "Gamma" "Cy" (Num 2.0) (Str "a spy thriller sequel") (Num 5))] |}.

(** The similarities of [shelf]: the second row is the zero vector. *)
Definition shelf_sim : list (list Q) :=
  [[1; 0; 0.8]; [0; 0; 0]; [0.8; 0; 1]]%Q.

(** Two books of one title by two authors, a repeated pair, and a rating
    that does not parse. *)
Definition catalog : DataFrame :=
  {| columns := sample_columns;
     rows := [(0, book "Dune" "Herbert" (Str "n/a") (Str "sand") (Num 7));
              (1, book "Dune" "Herbert" (Str "5") (Str "sand") (Num 7));
              (2, book "DUNE" "Lynch" (Num 4.6) (Str "a film") (Num 10));
              (3, book "Dune" "Herbert" (Num 3.0) (Str "sand again") (Num 8));
              (4, book "Emma" "Austen" (Num 4.6) (Str "a match") (Num 5))] |}.

(** A frame with a rating column and nothing else to detect, and one with
    no rating column. *)
Definition bare : DataFrame :=
  {| columns := ["Book Name"; "Author"; "Stars Rating"];
     rows := [(0, mk_row [("Book Name", Str "Alpha"); ("Author", Str "Ann");
                          ("Stars Rating", Num 4.0)])] |}.


(** The frame that [load_data] hands to its clean-up lines. *)
Definition coerced (parse_number : string -> option number) (rating_col : string)
    (merged raw : DataFrame) : Prop :=
  Forall2 (fun m r => fst r = fst m /\
                      snd r "Rating" = to_numeric parse_number (snd m rating_col) /\
                      snd r "Book Name" = snd m "Book Name" /\
                      snd r "Author" = snd m "Author")
          (rows merged) (rows raw).


(** The cleaned [shelf], its title index, and the cleaned [catalog]. *)
Definition frame_of (l : loaded) : DataFrame :=
  match l with
  | Loaded df _ => df
  | LoadStopped _ => {| columns := []; rows := [] |}
  end.

Definition shelf_df : DataFrame := frame_of (load_data parse_digits shelf).
Definition shelf_index : Series := title_index shelf_df.
Definition catalog_df : DataFrame := frame_of (load_data parse_digits catalog).

(** Three books with their review counts, for the hidden gems query. *)
Definition scenario_df : DataFrame :=
  {| columns := ["Book Name"; "Author"; "Rating"; "Reviews"];
     rows := [(0, mk_row [("Book Name", Str "A"); ("Author", Str "a");
                          ("Rating", Num 4.6); ("Reviews", Num 10)]);
              (1, mk_row [("Book Name", Str "B"); ("Author", Str "b");
                          ("Rating", Num 4.9); ("Reviews", Num 60)]);
              (2, mk_row [("Book Name", Str "C"); ("Author", Str "c");
                          ("Rating", Num 4.7); ("Reviews", Num 5)])] |}.

(** The cleaned [bare]: a catalog of one book. *)
Definition bare_df : DataFrame := frame_of (load_data parse_digits bare).

(** Four books that all pass as hidden gems, rated in two pairs. *)
Definition quartet : DataFrame :=
  {| columns := sample_columns;
     rows := [(0, book "North" "Ann" (Num 4.6) (Str "a cold coast") (Num 10));
              (1, book "South" "Bob" (Num 4.6) (Str "a warm coast") (Num 20));
              (2, book "East" "Cy" (Num 4.8) (Str "a long road") (Num 30));
              (3, book "West" "Dee" (Num 4.8) (Str "a short road") (Num 40))] |}.

Definition quartet_df : DataFrame := frame_of (load_data parse_digits quartet).

(** Three books, the first two with the same description. *)
Definition twins : DataFrame :=
  {| columns := sample_columns;
     rows := [(0, book "Alpha" "Ann" (Num 4.0) (Str "a spy thriller") (Num 10));
              (1, book "Beta" "Bob" (Num 4.8) (Str "a spy thriller") (Num 60));
              (2, book "Gamma" "Cy" (Num 3.0) (Str "a cooking guide") (Num 5))] |}.

Definition twins_df : DataFrame := frame_of (load_data parse_digits twins).

(** The similarities of [twins], with [t] the score of the twins with each
    other and with themselves. *)
Definition twins_sim (t : Q) : list (list Q) :=
  [[t; t; 0]; [t; t; 0]; [0; 0; t]]%Q.

(** Three ratings read from text: an infinity, a text that is no number, and
    a number. *)
Definition boundless : DataFrame :=
  {| columns := sample_columns;
     rows := [(0, book "Alpha" "Ann" (Str "inf") (Str "a spy thriller") (Num 10));
              (1, book "Beta" "Bob" (Str "n/a") (Str "a sequel") (Num 60));
              (2, book "Gamma" "Cy" (Str "5") (Str "a cooking guide") (Num 5))] |}.

Definition boundless_df : DataFrame := frame_of (load_data parse_digits boundless).

(** * Proofs *)

(** ** Lists *)

Lemma map_fst_combine_seq {A : Type} (l : list A) (k : nat) :
  map fst (combine (seq k (List.length l)) l) = seq k (List.length l).
Proof.
  revert k; induction l as [|a l IH]; intros k; simpl; [reflexivity|].
  now rewrite IH.
Qed.

Lemma map_snd_combine_seq {A : Type} (l : list A) (k : nat) :
  map snd (combine (seq k (List.length l)) l) = l.
Proof.
  revert k; induction l as [|a l IH]; intros k; simpl; [reflexivity|].
  now rewrite IH.
Qed.

Lemma Forall2_map_right {A B : Type} (P : A -> B -> Prop) (f : A -> B) (l : list A) :
  (forall a, P a (f a)) -> Forall2 P l (map f l).
Proof.
  intros H; induction l; simpl; constructor; auto.
Qed.

Lemma find_none_all {A : Type} (f : A -> bool) (l : list A) :
  (forall x, In x l -> f x = false) -> find f l = None.
Proof.
  induction l as [|a l IH]; simpl; intros H; [reflexivity|].
  rewrite (H a (or_introl eq_refl)). apply IH. intros x Hx. apply H. now right.
Qed.

Lemma find_some_any {A : Type} (f : A -> bool) (l : list A) (x : A) :
  In x l -> f x = true -> exists y, find f l = Some y.
Proof.
  induction l as [|a l IH]; simpl; intros Hin Hx; [contradiction|].
  destruct (f a) eqn:E; [now exists a|].
  destruct Hin as [->|Hin]; [congruence|now apply IH].
Qed.

Lemma ForallOrdPairs_map {A B : Type} (f : A -> B) (R : B -> B -> Prop) (l : list A) :
  ForallOrdPairs R (map f l) <-> ForallOrdPairs (fun a b => R (f a) (f b)) l.
Proof.
  induction l as [|a l IH]; simpl.
  - split; intros _; constructor.
  - split; intros H; inversion H; subst; constructor.
    + now apply Forall_map.
    + now apply IH.
    + now apply Forall_map.
    + now apply IH.
Qed.

(** ** Cleaning *)

Lemma cell_eqb_sym (a b : cell) : cell_eqb a b = cell_eqb b a.
Proof.
  destruct a as [|s|x|m], b as [|t|y|n]; simpl; try reflexivity.
  - apply String.eqb_sym.
  - apply Qeq_bool_comm.
  - now destruct m, n.
Qed.

Lemma same_on_sym (subset : list string) (a b : row) :
  same_on subset a b = same_on subset b a.
Proof.
  unfold same_on. induction subset as [|c s IH]; simpl; [reflexivity|].
  now rewrite IH, cell_eqb_sym.
Qed.

Lemma keep_first_In subset seen l r :
  In r (keep_first subset seen l) -> In r l.
Proof.
  revert seen; induction l as [|a l IH]; intros seen; simpl; [tauto|].
  destruct (existsb (same_on subset (snd a)) seen).
  - intros H; right; eapply IH; eauto.
  - intros [->|H]; [now left|right; eapply IH; eauto].
Qed.

Lemma keep_first_unseen subset seen l :
  Forall (fun r => existsb (same_on subset (snd r)) seen = false)
         (keep_first subset seen l).
Proof.
  revert seen; induction l as [|a l IH]; intros seen; simpl; [constructor|].
  destruct (existsb (same_on subset (snd a)) seen) eqn:E; [apply IH|].
  constructor; [exact E|].
  specialize (IH (snd a :: seen)).
  eapply Forall_impl; [|exact IH]. simpl. intros r Hr.
  apply orb_false_iff in Hr. tauto.
Qed.

Lemma keep_first_distinct subset seen l :
  distinct_on subset (keep_first subset seen l).
Proof.
  unfold distinct_on.
  revert seen; induction l as [|a l IH]; intros seen; simpl; [constructor|].
  destruct (existsb (same_on subset (snd a)) seen) eqn:E; [apply IH|].
  constructor; [|apply IH].
  eapply Forall_impl; [|apply (keep_first_unseen subset (snd a :: seen) l)].
  simpl. intros r Hr. apply orb_false_iff in Hr.
  rewrite same_on_sym. tauto.
Qed.

Lemma distinct_on_rows subset (l : list (nat * row)) :
  distinct_on subset l <->
  ForallOrdPairs (fun a b => same_on subset a b = false) (map snd l).
Proof.
  unfold distinct_on. symmetry.
  apply (ForallOrdPairs_map snd (fun a b => same_on subset a b = false)).
Qed.

Lemma reset_index_index df : index (reset_index df) = seq 0 (len (reset_index df)).
Proof.
  unfold index, reset_index, len; simpl.
  rewrite <- (length_map snd (rows df)) at 1.
  rewrite map_fst_combine_seq.
  rewrite length_combine, length_seq, !length_map. now rewrite Nat.min_id.
Qed.

Lemma reset_index_rows df : map snd (rows (reset_index df)) = map snd (rows df).
Proof.
  unfold reset_index, len; simpl.
  rewrite <- (length_map snd (rows df)). apply map_snd_combine_seq.
Qed.

Lemma clean_spec df :
  index (clean df) = seq 0 (len (clean df)) /\
  distinct_on ["Book Name"; "Author"] (rows (clean df)) /\
  Forall (fun r => isna (snd r "Rating") = false /\ In (snd r) (map snd (rows df)))
         (rows (clean df)).
Proof.
  unfold clean. split; [apply reset_index_index|]. split.
  - apply distinct_on_rows. rewrite reset_index_rows. apply distinct_on_rows.
    apply keep_first_distinct.
  - assert (H : Forall (fun r : row => isna (r "Rating") = false /\ In r (map snd (rows df)))
                   (map snd (rows (reset_index (drop_duplicates ["Book Name"; "Author"]
                                                  (dropna "Rating" df)))))).
    { rewrite reset_index_rows. apply Forall_map. apply Forall_forall.
      intros r Hr. simpl in Hr. apply keep_first_In in Hr.
      apply filter_In in Hr. destruct Hr as [Hin Hr].
      split; [now apply negb_true_iff in Hr|now apply in_map]. }
    now apply Forall_map in H.
Qed.

(** A column assignment changes no label and no other column. *)
Lemma assign_other name f df :
  Forall2 (fun m r => fst r = fst m /\ snd r name = f (snd m) /\
                      forall c, c <> name -> snd r c = snd m c)
          (rows df) (rows (assign name f df)).
Proof.
  unfold assign; simpl. apply Forall2_map_right. intros [i r]; simpl.
  rewrite String.eqb_refl. repeat split.
  intros c Hc. apply String.eqb_neq in Hc. now rewrite Hc.
Qed.

Lemma Forall2_chain {A : Type} (P Q R : A -> A -> Prop) (l1 l2 l3 : list A) :
  (forall a b c, P a b -> Q b c -> R a c) ->
  Forall2 P l1 l2 -> Forall2 Q l2 l3 -> Forall2 R l1 l3.
Proof.
  intros H H12; revert l3; induction H12; intros l3 H23; inversion H23; subst;
    constructor; eauto.
Qed.

Lemma coerced_assign parse_number rating_col merged raw name f :
  name <> "Rating" -> name <> "Book Name" -> name <> "Author" ->
  coerced parse_number rating_col merged raw ->
  coerced parse_number rating_col merged (assign name f raw).
Proof.
  intros H1 H2 H3 H. unfold coerced in *.
  eapply Forall2_chain; [|exact H|apply (assign_other name f raw)].
  simpl. intros a b c (Ha & Hb & Hc & Hd) (Ha' & _ & Ho).
  rewrite Ha', (Ho "Rating"), (Ho "Book Name"), (Ho "Author") by congruence. auto.
Qed.

Lemma coerced_first parse_number rating_col merged :
  coerced parse_number rating_col merged
          (assign "Rating" (fun r => to_numeric parse_number (r rating_col)) merged).
Proof.
  unfold coerced.
  eapply Forall2_impl; [|apply assign_other].
  simpl. intros a b (Ha & Hb & Ho).
  rewrite (Ho "Book Name"), (Ho "Author") by discriminate. auto.
Qed.

(** C5, first half: what [load_data] returns is the clean-up of a frame whose
    rating column is the coerced rating column of the merged frame. *)
Lemma load_data_inv parse_number merged df reviews_col :
  load_data parse_number merged = Loaded df reviews_col ->
  exists rating_col raw,
    detect "rating" merged = Some rating_col /\
    coerced parse_number rating_col merged raw /\
    df = clean raw.
Proof.
  unfold load_data. destruct (detect "rating" merged) as [rating_col|] eqn:E;
    [|discriminate].
  cbv zeta. intros H. injection H as H _. exists rating_col.
  eexists; split; [reflexivity|]. split; [|symmetry; exact H].
  repeat match goal with
         | |- coerced _ _ _ (if ?b then _ else _) => destruct b
         | |- coerced _ _ _ (match ?o with Some _ => _ | None => _ end) => destruct o
         | |- coerced _ _ _ (assign "Rating" _ _) => apply coerced_first
         | |- coerced _ _ _ (assign _ _ _) => apply coerced_assign; [discriminate ..|]
         end.
Qed.

Lemma to_numeric_cases parse_number c :
  to_numeric parse_number c = NaN \/ is_float (to_numeric parse_number c).
Proof.
  destruct c as [|s|q|n]; simpl; [now left| |now right|now right].
  destruct (parse_number s) as [[q|n]|]; simpl; [now right|now right|now left].
Qed.

Lemma coerced_rating parse_number rating_col merged raw :
  coerced parse_number rating_col merged raw ->
  Forall (fun r : row => r "Rating" = NaN \/ is_float (r "Rating"))
         (map snd (rows raw)).
Proof.
  unfold coerced. induction 1 as [|m r lm lr (_ & Hr & _) _ IH]; simpl; constructor; auto.
  unfold row in *. cbv beta. rewrite Hr. apply to_numeric_cases.
Qed.

Lemma cell_eqb_trans a b c :
  cell_eqb a b = true -> cell_eqb b c = true -> cell_eqb a c = true.
Proof.
  destruct a as [|s|x|m], b as [|t|y|n], c as [|u|z|k]; simpl; try discriminate; auto.
  - rewrite !String.eqb_eq. congruence.
  - apply Qeq_bool_trans.
  - destruct m, n, k; simpl; auto.
Qed.

Lemma same_on_trans subset a b c :
  same_on subset a b = true -> same_on subset b c = true -> same_on subset a c = true.
Proof.
  unfold same_on. induction subset as [|col s IH]; simpl; [reflexivity|].
  rewrite !andb_true_iff. intros [H1 H2] [H3 H4]. split; [|now apply IH].
  eapply cell_eqb_trans; eauto.
Qed.

Lemma keep_first_first subset seen l r :
  In r (keep_first subset seen l) ->
  existsb (same_on subset (snd r)) seen = false /\
  exists pre post,
    l = pre ++ r :: post /\
    Forall (fun p => same_on subset (snd r) (snd p) = false) pre.
Proof.
  revert seen; induction l as [|a t IH]; intros seen; simpl; [contradiction|].
  destruct (existsb (same_on subset (snd a)) seen) eqn:E.
  - intros Hin. destruct (IH seen Hin) as (Hu & pre & post & -> & Hpre).
    split; [exact Hu|]. exists (a :: pre), post. split; [reflexivity|].
    constructor; [|exact Hpre].
    destruct (same_on subset (snd r) (snd a)) eqn:Era; [|reflexivity].
    apply existsb_exists in E. destruct E as (x & Hx & Eax).
    assert (existsb (same_on subset (snd r)) seen = true).
    { apply existsb_exists. exists x. split; [exact Hx|].
      eapply same_on_trans; eauto. }
    congruence.
  - intros [->|Hin].
    + split; [exact E|]. exists [], t. split; [reflexivity|constructor].
    + destruct (IH (snd a :: seen) Hin) as (Hu & pre & post & -> & Hpre).
      simpl in Hu. apply orb_false_iff in Hu. destruct Hu as [Hra Hu].
      split; [exact Hu|]. exists (a :: pre), post. split; [reflexivity|].
      constructor; [exact Hra|exact Hpre].
Qed.

Lemma clean_first_occurrence df :
  Forall (fun r => first_with ["Book Name"; "Author"] (rows (dropna "Rating" df)) (snd r))
         (rows (clean df)).
Proof.
  assert (H : Forall (first_with ["Book Name"; "Author"] (rows (dropna "Rating" df)))
                (map snd (rows (clean df)))).
  { unfold clean. rewrite reset_index_rows. apply Forall_map. apply Forall_forall.
    intros r Hr. simpl in Hr. apply keep_first_first in Hr.
    destruct Hr as (_ & pre & post & E & Hpre).
    exists pre, r, post. split; [exact E|]. split; [reflexivity|exact Hpre]. }
  apply (proj1 (Forall_map snd _ (rows (clean df)))) in H. exact H.
Qed.

(** C5, as the code has it.  [load_data] coerces the rating, drops the rows
    whose rating is missing, then the later rows of a repeated (title,
    author) pair, then numbers the rows 0..N-1: the frame it returns is
    [reset_index] of [drop_duplicates] of [dropna] of the frame with the
    coerced rating.  So its labels are 0..N-1, no two of its rows have the
    same title and author, each of its rows is the first of the rated rows
    with its title and author, and every row has a float as its rating: a
    number or an infinity, never a missing value. *)
Theorem load_data_cleaning_order parse_number merged df reviews_col :
  load_data parse_number merged = Loaded df reviews_col ->
  exists rating_col raw,
    detect "rating" merged = Some rating_col /\
    coerced parse_number rating_col merged raw /\
    df = reset_index (drop_duplicates ["Book Name"; "Author"] (dropna "Rating" raw)) /\
    index df = seq 0 (len df) /\
    distinct_on ["Book Name"; "Author"] (rows df) /\
    Forall (fun r => first_with ["Book Name"; "Author"] (rows (dropna "Rating" raw)) (snd r))
           (rows df) /\
    Forall (fun r => is_float (snd r "Rating")) (rows df).
Proof.
  intros H. destruct (load_data_inv _ _ _ _ H) as (rating_col & raw & Hd & Hc & ->).
  exists rating_col, raw. split; [exact Hd|]. split; [exact Hc|].
  split; [reflexivity|].
  destruct (clean_spec raw) as (Hi & Hk & Hr).
  split; [exact Hi|]. split; [exact Hk|]. split; [apply clean_first_occurrence|].
  pose proof (coerced_rating _ _ _ _ Hc) as Hn.
  rewrite Forall_forall in Hn.
  eapply Forall_impl; [|exact Hr]. simpl. intros r [Hna Hin].
  destruct (Hn _ Hin) as [E|E]; [rewrite E in Hna; discriminate|exact E].
Qed.

Lemma load_data_cleaning_order_witness :
  exists df,
    load_data parse_digits catalog = Loaded df (Some "Number of Reviews") /\
    index df = [0; 1; 2] /\
    distinct_on ["Book Name"; "Author"] (rows df) /\
    Forall (fun r => is_float (snd r "Rating")) (rows df).
Proof.
  eexists. split; [reflexivity|].
  destruct (load_data_cleaning_order parse_digits catalog _ _ eq_refl)
    as (rating_col & raw & _ & _ & _ & Hi & Hd & _ & Hr).
  split; [exact Hi|]. split; [exact Hd|exact Hr].
Defined.

(** C5, the finite rating.  The rating "inf" of the first book parses, as an
    infinity; it is not missing, so the row survives the cleaning with a
    rating that is no finite number. *)
Lemma load_data_infinite_rating_counterexample :
  load_data parse_digits boundless = Loaded boundless_df (Some "Number of Reviews") /\
  map (project ["Book Name"; "Author"; "Rating"]) (rows boundless_df)
  = [(0, [Str "Alpha"; Str "Ann"; Inf false]);
     (1, [Str "Gamma"; Str "Cy"; Num (inject_Z 5)])] /\
  ~ Forall (fun r => exists x, snd r "Rating" = Num x) (rows boundless_df).
Proof.
  split; [reflexivity|]. split; [reflexivity|].
  intros H. destruct (rows boundless_df) as [|r t] eqn:E; [discriminate E|].
  inversion H as [|x y [q Hq] _]; subst.
  injection E as <- _. discriminate Hq.
Qed.

(** The order matters: the first "Dune" by Herbert has a rating that does
    not parse, so the second one is the first occurrence that is kept. *)
Example catalog_cleaned :
  match load_data parse_digits catalog with
  | Loaded df _ => map (project ["Book Name"; "Author"; "Rating"]) (rows df)
  | LoadStopped _ => []
  end
  = [(0, [Str "Dune"; Str "Herbert"; Num (inject_Z 5)]);
     (1, [Str "DUNE"; Str "Lynch"; Num 4.6]);
     (2, [Str "Emma"; Str "Austen"; Num 4.6])].
Proof. reflexivity. Qed.

(** ** The rating column *)

Lemma detect_none word df :
  (forall c, In c (columns df) -> str_in word (lower c) = false) ->
  detect word df = None.
Proof. intros H. unfold detect. now apply find_none_all. Qed.

Lemma detect_some word df :
  (exists c, In c (columns df) /\ str_in word (lower c) = true) ->
  exists c, detect word df = Some c.
Proof.
  intros (c & Hin & Hc). unfold detect.
  eapply find_some_any; eauto.
Qed.



(** ** A title that is not in the index *)

Lemma contains_false indices key :
  ~ In (Str key) (map fst indices) -> contains indices key = false.
Proof.
  unfold contains. induction indices as [|e l IH]; simpl; intros H; [reflexivity|].
  rewrite IH by tauto. rewrite orb_false_r.
  destruct (fst e) as [|s|q|n] eqn:E; simpl; try reflexivity.
  apply String.eqb_neq. intros ->. tauto.
Qed.

(** C6.  When the lower-cased title of the selected book is no label of the
    index, [recommend] answers [NotFound]: pressing the button shows the
    error "Book not found." and nothing after it, no table of books, and the
    run returns.  The index is an argument that is only read. *)
Theorem recommend_not_found df cosine_sim indices min_rating selected_book :
  ~ In (Str (lower selected_book)) (map fst indices) ->
  recommend df cosine_sim indices min_rating selected_book = NotFound /\
  recommend_by_book df cosine_sim indices min_rating selected_book true
  = ([st_subheader "Recommend by Book"; st_error "Book not found."], Returned).
Proof.
  intros H. apply contains_false in H.
  assert (E : recommend df cosine_sim indices min_rating selected_book = NotFound).
  { unfold recommend. now rewrite H. }
  split; [exact E|]. unfold recommend_by_book. simpl. now rewrite E.
Qed.

Lemma recommend_not_found_witness :
  recommend shelf_df shelf_sim shelf_index 0 "Unknown Title" = NotFound /\
  recommend_by_book shelf_df shelf_sim shelf_index 0 "Unknown Title" true
  = ([st_subheader "Recommend by Book"; st_error "Book not found."], Returned).
Proof.
  apply recommend_not_found.
  vm_compute. intros [H|[H|[H|[]]]]; discriminate H.
Defined.

(** ** The sort of [recommend_by_book] *)

Lemma insert_desc_perm x l : Permutation (insert_desc x l) (x :: l).
Proof.
  induction l as [|y t IH]; simpl; [reflexivity|].
  destruct (Qle_bool (snd y) (snd x)); [reflexivity|].
  rewrite IH. apply perm_swap.
Qed.

Lemma sorted_desc_perm l : Permutation (sorted_desc l) l.
Proof.
  induction l as [|x t IH]; simpl; [reflexivity|].
  rewrite insert_desc_perm. now constructor.
Qed.

Lemma score_ge_trans a b c : score_ge a b -> score_ge b c -> score_ge a c.
Proof. unfold score_ge. intros H1 H2. eapply Qle_trans; eauto. Qed.

Lemma insert_desc_sorted x l :
  StronglySorted score_ge l -> StronglySorted score_ge (insert_desc x l).
Proof.
  induction 1 as [|y t Ht IH Hy]; simpl.
  - constructor; constructor.
  - destruct (Qle_bool (snd y) (snd x)) eqn:E.
    + apply Qle_bool_iff in E. constructor.
      * now constructor.
      * constructor; [exact E|].
        eapply Forall_impl; [|exact Hy]. intros z Hz. eapply score_ge_trans; eauto.
    + assert (Hxy : score_ge y x).
      { unfold score_ge. apply Qlt_le_weak. apply Qnot_le_lt. intros H.
        apply Qle_bool_iff in H. congruence. }
      constructor; [exact IH|].
      eapply Permutation_Forall.
      * symmetry. apply insert_desc_perm.
      * now constructor.
Qed.

Lemma sorted_desc_sorted l : StronglySorted score_ge (sorted_desc l).
Proof.
  induction l as [|x t IH]; simpl; [constructor|now apply insert_desc_sorted].
Qed.

(** The sort is stable: a list that is already in descending order of score
    comes back as it is, entries of equal score included. *)
Lemma sorted_desc_keeps_sorted l :
  StronglySorted score_ge l -> sorted_desc l = l.
Proof.
  induction 1 as [|x t Ht IH Hx]; simpl; [reflexivity|].
  rewrite IH. destruct t as [|y t']; [reflexivity|]. simpl.
  inversion Hx as [|? ? Hxy _]; subst. unfold score_ge in Hxy.
  apply Qle_bool_iff in Hxy. now rewrite Hxy.
Qed.


Lemma StronglySorted_filter {A : Type} (R : A -> A -> Prop) (f : A -> bool) l :
  StronglySorted R l -> StronglySorted R (filter f l).
Proof.
  induction 1 as [|a l Hl IH Ha]; simpl; [constructor|].
  destruct (f a); [|exact IH]. constructor; [exact IH|].
  apply Forall_forall. intros x Hx. apply filter_In in Hx.
  rewrite Forall_forall in Ha. now apply Ha.
Qed.

Lemma StronglySorted_app {A : Type} (R : A -> A -> Prop) l1 l2 :
  StronglySorted R (l1 ++ l2) ->
  StronglySorted R l1 /\ forall a b, In a l1 -> In b l2 -> R a b.
Proof.
  induction l1 as [|x l1 IH]; simpl; intros H.
  - split; [constructor|contradiction].
  - apply StronglySorted_inv in H. destruct H as [H Hx].
    destruct (IH H) as [H1 H2]. rewrite Forall_forall in Hx. split.
    + constructor; [exact H1|]. apply Forall_forall. intros y Hy.
      apply Hx. apply in_or_app. now left.
    + intros a b [<-|Ha] Hb; [apply Hx; apply in_or_app; now right|now apply H2].
Qed.

(** ** The rating filter of [recommend_by_book] *)

Lemma rated_filter df min_rating l :
  (forall e, In e l -> loc df (fst e) <> None) ->
  rated df min_rating l = Some (filter (fun e => rating_ok df min_rating (fst e)) l).
Proof.
  induction l as [|e t IH]; simpl; intros H; [reflexivity|].
  unfold rating_ok at 1.
  destruct (loc df (fst e)) as [r|] eqn:E.
  - rewrite IH by (intros; apply H; now right).
    now destruct (cell_ge (r "Rating") min_rating).
  - exfalso. apply (H e); [now left|exact E].
Qed.

Lemma enumerate_fst {A : Type} (l : list A) e :
  In e (enumerate l) -> fst e < List.length l.
Proof.
  unfold enumerate. intros H.
  assert (Hin : In (fst e) (map fst (combine (seq 0 (List.length l)) l)))
    by now apply in_map.
  rewrite map_fst_combine_seq in Hin. apply in_seq in Hin. lia.
Qed.

Lemma getitem_contains indices key idx :
  getitem indices key = Scalar idx -> contains indices key = true.
Proof.
  unfold getitem, contains. intros H.
  apply existsb_exists.
  destruct (filter (fun e => cell_eqb (fst e) (Str key)) indices) as [|e l] eqn:E;
    [discriminate|].
  exists e. apply (filter_In (fun e => cell_eqb (fst e) (Str key))).
  rewrite E. now left.
Qed.


Lemma In_combine_seq {A : Type} (l : list A) (k j : nat) (t : A) :
  In (j, t) (combine (seq k (List.length l)) l) <->
  k <= j /\ nth_error l (j - k) = Some t.
Proof.
  revert k; induction l as [|a l IH]; intros k; simpl.
  - split; [contradiction|]. intros [_ H]. destruct (j - k); discriminate.
  - rewrite IH. split.
    + intros [H|[H1 H2]].
      * injection H as <- <-. rewrite Nat.sub_diag. split; [lia|reflexivity].
      * split; [lia|]. replace (j - k) with (S (j - S k)) by lia. exact H2.
    + intros [H1 H2]. destruct (Nat.eq_dec j k) as [->|Hne].
      * rewrite Nat.sub_diag in H2. simpl in H2. injection H2 as ->. now left.
      * right. split; [lia|].
        replace (j - k) with (S (j - S k)) in H2 by lia. exact H2.
Qed.

Lemma In_enumerate {A : Type} (l : list A) (j : nat) (t : A) :
  In (j, t) (enumerate l) <-> nth_error l j = Some t.
Proof.
  unfold enumerate. rewrite In_combine_seq, Nat.sub_0_r.
  split; [tauto|]. split; [lia|assumption].
Qed.

(** When the score of the seed is strictly above every other score of its
    row, the head of the sorted list is the seed and the seed is nowhere
    behind it. *)
Lemma dominant_seed_is_dropped scores idx s :
  nth_error scores idx = Some s ->
  (forall j t, j <> idx -> nth_error scores j = Some t -> (t < s)%Q) ->
  exists rest,
    sorted_desc (enumerate scores) = (idx, s) :: rest /\ ~ In idx (map fst rest).
Proof.
  intros Hs Hdom.
  pose proof (sorted_desc_perm (enumerate scores)) as Hp.
  pose proof (sorted_desc_sorted (enumerate scores)) as Hsorted.
  assert (Hnd : NoDup (map fst (sorted_desc (enumerate scores)))).
  { eapply Permutation_NoDup; [apply Permutation_map; symmetry; exact Hp|].
    unfold enumerate. rewrite map_fst_combine_seq. apply seq_NoDup. }
  assert (Hin : In (idx, s) (sorted_desc (enumerate scores))).
  { eapply Permutation_in; [symmetry; exact Hp|]. now apply In_enumerate. }
  destruct (sorted_desc (enumerate scores)) as [|[j t] rest]; [contradiction|].
  assert (Hh : nth_error scores j = Some t).
  { apply In_enumerate. eapply Permutation_in; [exact Hp|now left]. }
  apply StronglySorted_inv in Hsorted. destruct Hsorted as [_ Hall].
  rewrite Forall_forall in Hall.
  inversion Hnd as [|x l Hx Hl]; subst.
  destruct (Nat.eq_dec j idx) as [->|Hne].
  - rewrite Hs in Hh. injection Hh as <-. exists rest. split; [reflexivity|exact Hx].
  - exfalso. destruct Hin as [Heq|Hin]; [injection Heq as -> _; now apply Hne|].
    specialize (Hall _ Hin). unfold score_ge in Hall. simpl in Hall.
    specialize (Hdom j t Hne Hh). apply (Qlt_not_le _ _ Hdom). exact Hall.
Qed.

Lemma cell_ge_at_least c q : cell_ge c q = true <-> at_least c q.
Proof.
  destruct c as [|s|x|n]; simpl; try (split; [discriminate|contradiction]).
  - apply Qle_bool_iff.
  - apply negb_true_iff.
Qed.

Lemma cell_le_at_most c q : cell_le c q = true <-> at_most c q.
Proof.
  destruct c as [|s|x|n]; simpl; try (split; [discriminate|contradiction]).
  - apply Qle_bool_iff.
  - tauto.
Qed.


Lemma recommend_resolved df cosine_sim indices min_rating selected_book idx scores :
  getitem indices (lower selected_book) = Scalar idx ->
  nth_error cosine_sim idx = Some scores ->
  (forall i, i < List.length scores -> loc df i <> None) ->
  recommend df cosine_sim indices min_rating selected_book
  = Results idx (firstn 5 (filter (fun e => rating_ok df min_rating (fst e))
                                  (tl (sorted_desc (enumerate scores))))).
Proof.
  intros Hg Hs Hl. unfold recommend.
  rewrite (getitem_contains _ _ _ Hg), Hg, Hs. simpl negb. cbv iota zeta.
  rewrite rated_filter; [reflexivity|].
  intros e He. apply Hl. apply enumerate_fst.
  apply (Permutation_in e (sorted_desc_perm (enumerate scores))).
  destruct (sorted_desc (enumerate scores)); simpl in *; tauto.
Qed.



(** C4, on the cleaned twins.  "Alpha" (row 0) and "Beta" (row 1) have the
    same description, so row 1 of the matrix gives both the same score [t],
    and "Gamma" (row 2) a score of 0.  For the seed "Beta" the stable sort
    puts row 0 first, the slice drops it, and the result is the seed itself
    and then row 2: row 0 passes the rating filter and has a higher score
    than row 2, and is not among the results. *)
Theorem recommend_drops_a_twin (t : Q) :
  (0 < t)%Q ->
  recommend twins_df (twins_sim t) (title_index twins_df) 1 "Beta"
  = Results 1 [(1, t); (2, 0%Q)] /\
  nth_error (twins_sim t) 1 = Some [t; t; 0%Q] /\
  rating_ok twins_df 1 0 = true /\
  ~ In 0 (map fst [(1, t); (2, 0%Q)]).
Proof.
  intros Ht.
  assert (E : sorted_desc (enumerate [t; t; 0%Q]) = [(0, t); (1, t); (2, 0%Q)]).
  { unfold sorted_desc, enumerate. simpl.
    replace (Qle_bool 0 t) with true
      by (symmetry; apply Qle_bool_iff; now apply Qlt_le_weak).
    simpl.
    replace (Qle_bool t t) with true
      by (symmetry; apply Qle_bool_iff; apply Qle_refl).
    reflexivity. }
  split; [|split; [reflexivity|split; [reflexivity|]]].
  - rewrite (recommend_resolved twins_df (twins_sim t) (title_index twins_df) 1 "Beta"
               1 [t; t; 0%Q]).
    + rewrite E. reflexivity.
    + reflexivity.
    + reflexivity.
    + intros i Hi. simpl in Hi. destruct i as [|[|[|i]]]; [discriminate ..|lia].
  - simpl. intros [H|[H|[]]]; discriminate H.
Qed.

Lemma recommend_drops_a_twin_witness :
  recommend twins_df (twins_sim 1) (title_index twins_df) 1 "Beta"
  = Results 1 [(1, 1%Q); (2, 0%Q)] /\
  nth_error (twins_sim 1) 1 = Some [1%Q; 1%Q; 0%Q] /\
  rating_ok twins_df 1 0 = true /\
  ~ In 0 (map fst [(1, 1%Q); (2, 0%Q)]).
Proof.
  apply (recommend_drops_a_twin 1). reflexivity.
Defined.

(** ** Hidden gems *)

Lemma is_gem_within max_reviews min_rating r :
  is_gem max_reviews min_rating r = true <-> within max_reviews min_rating r.
Proof.
  unfold is_gem, within.
  now rewrite andb_true_iff, cell_le_at_most, cell_ge_at_least.
Qed.

Lemma rating_geb_float a b :
  is_float (snd a "Rating") -> is_float (snd b "Rating") ->
  rating_geb a b = true -> rating_ge a b.
Proof.
  unfold rating_geb, rating_ge, float_le, is_float, row.
  destruct (snd a "Rating") as [|s|x|m], (snd b "Rating") as [|t|y|n]; simpl;
    try contradiction; intros _ _ H.
  - now apply Qle_bool_iff.
  - exact H.
  - now apply negb_true_iff.
  - apply orb_true_iff in H. destruct H as [H|H]; [right; now apply negb_true_iff|now left].
Qed.

Lemma at_least_float c q : at_least c q -> is_float c.
Proof. destruct c; simpl; tauto. Qed.

Lemma rating_geb_total a b : rating_geb a b = false -> rating_geb b a = true.
Proof.
  unfold rating_geb.
  destruct (snd a "Rating") as [|s|x|m], (snd b "Rating") as [|t|y|n]; simpl;
    try reflexivity; try discriminate.
  - intros H. apply Qle_bool_iff. apply Qlt_le_weak, Qnot_le_lt. intros H'.
    apply Qle_bool_iff in H'. congruence.
  - now destruct n.
  - now destruct m.
  - now destruct m, n.
Qed.

Lemma rating_geb_trans a b c :
  rating_geb a b = true -> rating_geb b c = true -> rating_geb a c = true.
Proof.
  unfold rating_geb.
  destruct (snd a "Rating") as [|s|x|m], (snd b "Rating") as [|t|y|n],
           (snd c "Rating") as [|u|z|k]; simpl; try reflexivity; try discriminate;
    try (now destruct m); try (now destruct n); try (now destruct k);
    try (now destruct m, n); try (now destruct n, k); try (now destruct m, k);
    try (now destruct m, n, k).
  rewrite !Qle_bool_iff. intros H1 H2. eapply Qle_trans; eauto.
Qed.

Lemma insert_behind_perm x l : Permutation (insert_behind x l) (x :: l).
Proof.
  induction l as [|y t IH]; simpl; [reflexivity|].
  destruct (rating_geb y x); [|reflexivity].
  rewrite IH. apply perm_swap.
Qed.

Lemma insert_behind_sorted x l :
  StronglySorted (fun a b => rating_geb a b = true) l ->
  StronglySorted (fun a b => rating_geb a b = true) (insert_behind x l).
Proof.
  induction 1 as [|y t Ht IH Hy]; simpl.
  - constructor; constructor.
  - destruct (rating_geb y x) eqn:E.
    + constructor; [exact IH|].
      eapply Permutation_Forall; [symmetry; apply insert_behind_perm|].
      now constructor.
    + apply rating_geb_total in E. constructor; [now constructor|].
      constructor; [exact E|].
      eapply Forall_impl; [|exact Hy]. intros z Hz. eapply rating_geb_trans; eauto.
Qed.

(** [sort_behind] does what [sort_values] promises. *)
Lemma sort_behind_sorts : sorts_by_rating sort_behind.
Proof.
  intros l. induction l as [|x t [IHp IHs]]; simpl.
  - split; constructor.
  - split; [rewrite insert_behind_perm; now constructor|now apply insert_behind_sorted].
Qed.

Lemma StronglySorted_refine {A : Type} (P : A -> Prop) (R R' : A -> A -> Prop) l :
  (forall a b, P a -> P b -> R a b -> R' a b) ->
  Forall P l -> StronglySorted R l -> StronglySorted R' l.
Proof.
  intros H HP. induction 1 as [|a l Hl IH Ha]; constructor.
  - apply IH. now inversion HP.
  - inversion HP; subst. rewrite Forall_forall in *. intros b Hb. auto.
Qed.

(** C3, as the code has it.  With a [sort_values] that returns the same rows
    in descending order of rating, every row of [gems] has at most
    [max_reviews] reviews and a rating of at least [min_rating], the ratings
    never increase along [gems], and [gems] holds exactly the rows of the
    frame that pass the two thresholds.  Nothing is said of the order of rows
    of equal rating. *)
Theorem hidden_gems_filtered_and_sorted sort_values df max_reviews min_rating :
  sorts_by_rating sort_values ->
  Forall (within max_reviews min_rating) (gems sort_values df max_reviews min_rating) /\
  StronglySorted rating_ge (gems sort_values df max_reviews min_rating) /\
  Permutation (gems sort_values df max_reviews min_rating)
              (filter (is_gem max_reviews min_rating) (rows df)).
Proof.
  intros Hsort. unfold gems.
  destruct (Hsort (filter (is_gem max_reviews min_rating) (rows df))) as [Hp Hs].
  assert (Hw : Forall (within max_reviews min_rating)
                 (sort_values (filter (is_gem max_reviews min_rating) (rows df)))).
  { eapply Permutation_Forall; [symmetry; exact Hp|].
    apply Forall_forall. intros r Hr. apply filter_In in Hr.
    now apply is_gem_within. }
  split; [exact Hw|]. split; [|exact Hp].
  eapply StronglySorted_refine; [|exact Hw|exact Hs].
  intros a b [_ Ha] [_ Hb] H.
  apply rating_geb_float; [eapply at_least_float; eauto ..|exact H].
Qed.

Lemma hidden_gems_filtered_and_sorted_witness :
  sorts_by_rating sort_behind /\
  Forall (within 50 4.5) (gems sort_behind catalog_df 50 4.5) /\
  StronglySorted rating_ge (gems sort_behind catalog_df 50 4.5) /\
  Permutation (gems sort_behind catalog_df 50 4.5)
              (filter (is_gem 50 4.5) (rows catalog_df)).
Proof.
  split; [exact sort_behind_sorts|].
  apply (hidden_gems_filtered_and_sorted sort_behind catalog_df 50 4.5).
  exact sort_behind_sorts.
Defined.

(** The scenario of the specification: reviews 10, 60, 5 and ratings 4.6,
    4.9, 4.7 with at most 50 reviews and a rating of at least 4.5 give the
    third book, then the first. *)
Example hidden_gems_scenario :
  map fst (gems sort_behind scenario_df 50 4.5) = [2; 0].
Proof. reflexivity. Qed.

(** C3, the order of ties.  The four books of the cleaned quartet all pass
    the thresholds; rows 0 and 1 are rated 4.6 and rows 2 and 3 are rated
    4.8.  The sort of the code returns them in the order 3, 2, 1, 0: in
    descending order of rating, and within each pair the later row first.
    [sort_behind] returns the same rows in descending order of rating, and on
    this frame in that same order. *)
Lemma hidden_gems_ties_counterexample :
  sorts_by_rating sort_behind /\
  map fst (filter (is_gem 50 4.5) (rows quartet_df)) = [0; 1; 2; 3] /\
  map fst (gems sort_behind quartet_df 50 4.5) = [3; 2; 1; 0] /\
  ~ ties_in_row_order (gems sort_behind quartet_df 50 4.5).
Proof.
  split; [exact sort_behind_sorts|]. split; [reflexivity|]. split; [reflexivity|].
  intros H.
  specialize (H 0 1 _ _ (Nat.lt_succ_diag_r 0) eq_refl eq_refl eq_refl eq_refl).
  simpl in H. lia.
Qed.

(** ** The title index *)

Lemma keep_first_value_all seen (s : Series) :
  NoDup (map snd s) ->
  (forall e, In e s -> ~ In (snd e) seen) ->
  keep_first_value seen s = s.
Proof.
  revert seen; induction s as [|e t IH]; intros seen Hnd Hseen; simpl; [reflexivity|].
  inversion Hnd as [|x l Hx Hl]; subst.
  destruct (existsb (Nat.eqb (snd e)) seen) eqn:E.
  - apply existsb_exists in E. destruct E as (v & Hv & Ev).
    apply Nat.eqb_eq in Ev. subst v. exfalso. apply (Hseen e); [now left|exact Hv].
  - f_equal. apply IH; [exact Hl|].
    intros e' He' [Heq|Hin].
    + apply Hx. rewrite Heq. now apply in_map.
    + apply (Hseen e'); [now right|exact Hin].
Qed.

(** [drop_duplicates] on the series of row labels removes nothing when the
    labels of the frame are distinct: every row keeps its entry in the index,
    whatever its title. *)
Lemma title_index_keeps_every_row df :
  NoDup (index df) ->
  title_index df
  = combine (map (fun r => str_lower (snd r "Book Name")) (rows df)) (index df).
Proof.
  intros H. unfold title_index, series_drop_duplicates.
  apply keep_first_value_all; [|intros e _ []].
  assert (E : forall (A : Type) (l1 : list A) (l2 : list nat),
             List.length l1 = List.length l2 -> map snd (combine l1 l2) = l2).
  { intros A l1; induction l1 as [|a l1 IH]; intros [|b l2] Hl; simpl in *;
      try reflexivity; try discriminate.
    f_equal. apply IH. now injection Hl. }
  rewrite E; [exact H|]. unfold index. now rewrite !length_map.
Qed.

(** And the frames that [load_data] returns have distinct labels. *)
Lemma title_index_of_loaded parse_number merged df reviews_col :
  load_data parse_number merged = Loaded df reviews_col ->
  title_index df
  = combine (map (fun r => str_lower (snd r "Book Name")) (rows df)) (seq 0 (len df)).
Proof.
  intros H. destruct (load_data_inv _ _ _ _ H) as (c & raw & _ & _ & ->).
  destruct (clean_spec raw) as (Hi & _ & _).
  rewrite title_index_keeps_every_row; rewrite Hi; [reflexivity|apply seq_NoDup].
Qed.

(** C2, on the cleaned catalog.  "Dune" by Herbert (row 0) and "DUNE" by Lynch
    (row 1) have the same lower-cased title; the index keeps both entries, a
    lookup of "dune" returns both row ids and not the first one alone, and
    pressing the button for that title ends in an exception. *)
Theorem title_index_keeps_later_rows :
  title_index catalog_df = [(Str "dune", 0); (Str "dune", 1); (Str "emma", 2)] /\
  getitem (title_index catalog_df) "dune" = SubSeries [0; 1] /\
  forall cosine_sim min_rating,
    List.length cosine_sim = 3 ->
    recommend catalog_df cosine_sim (title_index catalog_df) min_rating "Dune"
    = Failed "ValueError".
Proof.
  split; [reflexivity|]. split; [reflexivity|].
  intros cosine_sim min_rating H. unfold recommend.
  change (lower "Dune") with "dune".
  change (contains (title_index catalog_df) "dune") with true.
  change (getitem (title_index catalog_df) "dune") with (SubSeries [0; 1]).
  simpl. now rewrite H.
Qed.

(** ** The seed of a recommendation *)

(** C1, on the cleaned shelf.  "Beta" (row 1) has no description, so its
    row of the matrix is zero everywhere, itself included.  The stable sort
    leaves the three entries in place, the slice drops row 0, and the seed
    row 1 is the first book recommended for itself. *)
Theorem recommend_returns_the_seed (a b c d e f : Q) :
  recommend shelf_df [[a; b; c]; [0; 0; 0]; [d; e; f]]%Q shelf_index 1 "Beta"
  = Results 1 [(1, 0%Q); (2, 0%Q)] /\
  exists table,
    recommend_by_book shelf_df [[a; b; c]; [0; 0; 0]; [d; e; f]]%Q shelf_index 1 "Beta" true
    = ([st_subheader "Recommend by Book"; st_markdown "### Selected Book";
        st_book_card (Str "Beta") (Str "Bob") (Num 4.8);
        st_markdown "### Recommended Books";
        st_dataframe ["Book Name"; "Author"; "Rating"] table], Returned) /\
    In (1, [Str "Beta"; Str "Bob"; Num 4.8]) table.
Proof.
  split; [reflexivity|].
  eexists. split; [reflexivity|]. simpl. tauto.
Qed.

(** C1, where it holds: a seed whose own score is strictly above every other
    score of its row is not among the books recommended for it. *)
Lemma recommend_excludes_dominant_seed
    df cosine_sim indices min_rating selected_book idx scores s :
  getitem indices (lower selected_book) = Scalar idx ->
  nth_error cosine_sim idx = Some scores ->
  (forall i, i < List.length scores -> loc df i <> None) ->
  nth_error scores idx = Some s ->
  (forall j t, j <> idx -> nth_error scores j = Some t -> (t < s)%Q) ->
  exists results,
    recommend df cosine_sim indices min_rating selected_book = Results idx results /\
    ~ In idx (map fst results).
Proof.
  intros Hg Hrow Hl Hs Hdom.
  rewrite (recommend_resolved _ _ _ min_rating _ _ _ Hg Hrow Hl).
  destruct (dominant_seed_is_dropped scores idx s Hs Hdom) as (rest & -> & Hrest).
  eexists. split; [reflexivity|]. simpl tl.
  intros H. apply Hrest. apply in_map_iff in H. destruct H as (e & He & Hin).
  apply in_map_iff. exists e. split; [exact He|].
  assert (Hin' : In e (filter (fun e => rating_ok df min_rating (fst e)) rest)).
  { rewrite <- (firstn_skipn 5). apply in_or_app. left. exact Hin. }
  apply filter_In in Hin'. tauto.
Qed.

(** ** The global rating filter *)

(** C10.  On any page but the recommendation page, two runs of [main] on the
    same data whose widgets differ only in the global minimum rating show
    the same elements in the same order; [hidden_gems] is not given the
    global rating at all. *)
Theorem global_rating_only_reaches_recommend
    parse_number tokens similarity sort_values merged p g1 g2 book pressed reviews rating :
  p <> Recommendation ->
  main parse_number tokens similarity sort_values merged
       (mkWidgets p g1 book pressed reviews rating)
  = main parse_number tokens similarity sort_values merged
         (mkWidgets p g2 book pressed reviews rating).
Proof.
  intros Hp. unfold main.
  destruct (load_data parse_number merged) as [shown|df reviews_col]; [reflexivity|].
  destruct (build_model tokens similarity df) as [exn|cosine_sim indices]; [reflexivity|].
  cbv zeta.
  destruct (if existsb (String.eqb "Reviews") (columns df)
            then int_of (col_sum "Reviews" df) else inl (Str "N/A")) as [total|exn];
    [|reflexivity].
  unfold show_page.
  destruct p; simpl; [contradiction|reflexivity|reflexivity].
Qed.

Lemma global_rating_only_reaches_recommend_witness :
  main parse_digits words (fun _ => shelf_sim) sort_behind shelf
       (mkWidgets HiddenGems 1 "Alpha" true 50 4)
  = main parse_digits words (fun _ => shelf_sim) sort_behind shelf
         (mkWidgets HiddenGems 5 "Alpha" true 50 4).
Proof.
  apply global_rating_only_reaches_recommend. discriminate.
Defined.

(** * Further properties of the code *)

(** ** The select box *)

Lemma unique_In seen l b :
  In b (unique seen l) <-> In b l /\ ~ In b seen.
Proof.
  revert seen; induction l as [|x t IH]; intros seen; simpl; [tauto|].
  destruct (existsb (String.eqb x) seen) eqn:E.
  - rewrite IH. apply existsb_exists in E. destruct E as (y & Hy & Exy).
    apply String.eqb_eq in Exy. subst y. split.
    + intros [H1 H2]. tauto.
    + intros [[->|H1] H2]; [contradiction|tauto].
  - assert (Hx : ~ In x seen).
    { intros H. assert (existsb (String.eqb x) seen = true).
      { apply existsb_exists. exists x. split; [exact H|apply String.eqb_refl]. }
      congruence. }
    simpl. rewrite IH. simpl. split.
    + intros [->|[H1 H2]]; [tauto|]. split; [tauto|]. intros H. apply H2. now right.
    + intros [[->|H1] H2]; [now left|].
      destruct (string_dec x b) as [->|Hne]; [now left|]. right. split; [exact H1|].
      intros [H|H]; [contradiction|contradiction].
Qed.

Lemma unique_NoDup seen l : NoDup (unique seen l).
Proof.
  revert seen; induction l as [|x t IH]; intros seen; simpl; [constructor|].
  destruct (existsb (String.eqb x) seen); [apply IH|].
  constructor; [|apply IH]. rewrite unique_In. simpl. tauto.
Qed.

Lemma insert_str_perm x l : Permutation (insert_str x l) (x :: l).
Proof.
  induction l as [|y t IH]; simpl; [reflexivity|].
  destruct (str_le x y); [reflexivity|]. rewrite IH. apply perm_swap.
Qed.

Lemma sorted_str_perm l : Permutation (sorted_str l) l.
Proof.
  induction l as [|x t IH]; simpl; [reflexivity|].
  rewrite insert_str_perm. now constructor.
Qed.

Lemma str_le_total a b : str_le a b = false -> str_le b a = true.
Proof.
  unfold str_le.
  destruct (OrdersEx.String_as_OT.compare_spec a b) as [E|L|G]; try discriminate.
  intros _. unfold OrdersEx.String_as_OT.lt in G. now rewrite G.
Qed.

Lemma str_le_cases a b :
  str_le a b = true <-> a = b \/ OrdersEx.String_as_OT.lt a b.
Proof.
  unfold str_le.
  destruct (OrdersEx.String_as_OT.compare_spec a b) as [E|L|G].
  - split; [now left|reflexivity].
  - split; [now right|reflexivity].
  - split; [discriminate|].
    intros [->|L]; exfalso.
    + now apply (StrictOrder_Irreflexive (R := OrdersEx.String_as_OT.lt) b).
    + apply (StrictOrder_Irreflexive (R := OrdersEx.String_as_OT.lt) a).
      now transitivity b.
Qed.

Lemma str_le_trans a b c :
  str_le a b = true -> str_le b c = true -> str_le a c = true.
Proof.
  rewrite !str_le_cases. intros [->|H1] [->|H2]; auto.
  right. now transitivity b.
Qed.

Lemma insert_str_sorted x l :
  StronglySorted (fun a b => str_le a b = true) l ->
  StronglySorted (fun a b => str_le a b = true) (insert_str x l).
Proof.
  induction 1 as [|y t Ht IH Hy]; simpl.
  - constructor; constructor.
  - destruct (str_le x y) eqn:E.
    + constructor; [now constructor|]. constructor; [exact E|].
      eapply Forall_impl; [|exact Hy]. intros z Hz. eapply str_le_trans; eauto.
    + apply str_le_total in E. constructor; [exact IH|].
      eapply Permutation_Forall; [symmetry; apply insert_str_perm|].
      now constructor.
Qed.

Lemma sorted_str_sorted l :
  StronglySorted (fun a b => str_le a b = true) (sorted_str l).
Proof.
  induction l as [|x t IH]; simpl; [constructor|now apply insert_str_sorted].
Qed.

Lemma sorted_unique_strict names :
  StronglySorted OrdersEx.String_as_OT.lt (sorted_str (unique [] names)).
Proof.
  assert (Hnd : NoDup (sorted_str (unique [] names))).
  { eapply Permutation_NoDup; [symmetry; apply sorted_str_perm|apply unique_NoDup]. }
  pose proof (sorted_str_sorted (unique [] names)) as Hs.
  induction Hs as [|a l Hl IH Ha]; [constructor|].
  inversion Hnd as [|x y Hx Hy]; subst. constructor; [now apply IH|].
  rewrite Forall_forall in *. intros b Hb.
  destruct (proj1 (str_le_cases a b) (Ha b Hb)) as [->|H]; [contradiction|exact H].
Qed.

(** For titles and a search text in ASCII: the select box offers a title of
    the frame when it contains the search text, whatever the case of either,
    or when no title of the frame does; and it offers nothing else. *)
Theorem book_list_offers names search b :
  is_ascii search = true ->
  Forall (fun t => is_ascii t = true) names ->
  (In b (book_list names search) <->
   In b names /\
   (str_in (lower search) (lower b) = true \/
    forall t, In t names -> str_in (lower search) (lower t) = false)).
Proof.
  intros _ _.
  assert (Hall : forall x, In x (sorted_str (unique [] names)) <-> In x names).
  { intros x. split; intros H.
    - apply (Permutation_in x (sorted_str_perm _)) in H. now apply unique_In in H.
    - apply (Permutation_in x (Permutation_sym (sorted_str_perm _))).
      apply unique_In. simpl. tauto. }
  unfold book_list. destruct (String.eqb search EmptyString) eqn:Es; simpl negb; cbv iota.
  - apply String.eqb_eq in Es. subst search. rewrite Hall.
    assert (E : str_in (lower EmptyString) (lower b) = true)
      by (destruct (lower b); reflexivity).
    tauto.
  - destruct (filter (fun b0 => str_in (lower search) (lower b0))
                (sorted_str (unique [] names))) as [|f fs] eqn:Ef.
    + rewrite Hall. split; [|tauto]. intros H. split; [exact H|]. right.
      intros t Ht. apply Hall in Ht.
      destruct (str_in (lower search) (lower t)) eqn:Et; [|reflexivity].
      assert (Hin : In t (filter (fun b0 => str_in (lower search) (lower b0))
                            (sorted_str (unique [] names))))
        by (apply filter_In; tauto).
      rewrite Ef in Hin. contradiction.
    + rewrite <- Ef. rewrite filter_In, Hall. split; [tauto|].
      intros [H [Hm|Hnone]]; [tauto|]. exfalso.
      assert (Hf : In f (filter (fun b0 => str_in (lower search) (lower b0))
                           (sorted_str (unique [] names))))
        by (rewrite Ef; now left).
      apply filter_In in Hf. destruct Hf as [Hf1 Hf2]. apply Hall in Hf1.
      rewrite (Hnone f Hf1) in Hf2. discriminate.
Qed.

Lemma book_list_offers_witness :
  In "Beta" (book_list ["Gamma"; "Alpha"; "Beta"; "Alpha"] "ET") /\
  ~ In "Alpha" (book_list ["Gamma"; "Alpha"; "Beta"; "Alpha"] "ET").
Proof.
  assert (Ha : is_ascii "ET" = true) by reflexivity.
  assert (Hn : Forall (fun t => is_ascii t = true) ["Gamma"; "Alpha"; "Beta"; "Alpha"])
    by (repeat constructor).
  split.
  - apply (book_list_offers _ "ET" "Beta" Ha Hn). split; [simpl; tauto|now left].
  - intros H. apply (book_list_offers _ "ET" "Alpha" Ha Hn) in H.
    destruct H as [_ [H|H]]; [discriminate H|].
    specialize (H "Beta"). simpl in H.
    assert (E : true = false) by (apply H; tauto). discriminate E.
Defined.

(** The titles in the select box are in strictly ascending order, so none
    is offered twice. *)
Theorem book_list_ascending names search :
  StronglySorted OrdersEx.String_as_OT.lt (book_list names search) /\
  NoDup (book_list names search).
Proof.
  assert (Hs : StronglySorted OrdersEx.String_as_OT.lt (book_list names search)).
  { unfold book_list. pose proof (sorted_unique_strict names) as H.
    destruct (negb (String.eqb search EmptyString)); [|exact H].
    destruct (filter (fun b => str_in (lower search) (lower b))
                (sorted_str (unique [] names))) as [|f fs] eqn:Ef; [exact H|].
    rewrite <- Ef. now apply StronglySorted_filter. }
  split; [exact Hs|].
  induction Hs as [|a l Hl IH Ha]; constructor; [|exact IH].
  intros Hin. rewrite Forall_forall in Ha. specialize (Ha a Hin).
  now apply (StrictOrder_Irreflexive (R := OrdersEx.String_as_OT.lt) a).
Qed.

(** ** Looking a title up *)

Lemma lookup_values (lab : nat * row -> cell) (k : cell) (l : list (nat * row)) :
  map snd (filter (fun e => cell_eqb (fst e) k) (combine (map lab l) (map fst l)))
  = map fst (filter (fun r => cell_eqb (lab r) k) l).
Proof.
  induction l as [|r t IH]; simpl; [reflexivity|].
  destruct (cell_eqb (lab r) k); simpl; now rewrite IH.
Qed.

Lemma getitem_rows df key :
  NoDup (index df) ->
  getitem (title_index df) key
  = match map fst (filter (fun r => cell_eqb (str_lower (snd r "Book Name")) (Str key))
                          (rows df)) with
    | [] => KeyError
    | [i] => Scalar i
    | l => SubSeries l
    end.
Proof.
  intros H. unfold getitem. rewrite (title_index_keeps_every_row df H). unfold index.
  now rewrite (lookup_values (fun r => str_lower (snd r "Book Name"))).
Qed.

Lemma contains_rows df key :
  NoDup (index df) ->
  contains (title_index df) key
  = existsb (fun r => cell_eqb (str_lower (snd r "Book Name")) (Str key)) (rows df).
Proof.
  intros H. unfold contains. rewrite (title_index_keeps_every_row df H). unfold index.
  induction (rows df) as [|r t IH]; simpl; [reflexivity|]. now rewrite IH.
Qed.

(** With distinct row labels and titles in ASCII, looking a lower-cased
    title up in the index gives the labels of all the rows that carry it, in
    row order: an error for none, the label itself for one, the series of
    them for several. *)
Theorem title_lookup_lists_every_row df key :
  NoDup (index df) ->
  Forall ascii_title (rows df) ->
  getitem (title_index df) key
  = match map fst (filter (fun r => cell_eqb (str_lower (snd r "Book Name")) (Str key))
                          (rows df)) with
    | [] => KeyError
    | [i] => Scalar i
    | l => SubSeries l
    end.
Proof. intros H _. now apply getitem_rows. Qed.

Lemma catalog_df_labels : NoDup (index catalog_df).
Proof.
  change (index catalog_df) with (seq 0 3). apply seq_NoDup.
Qed.

Lemma shelf_df_labels : NoDup (index shelf_df).
Proof.
  change (index shelf_df) with (seq 0 3). apply seq_NoDup.
Qed.

Lemma catalog_df_ascii : Forall ascii_title (rows catalog_df).
Proof.
  apply Forall_forall. intros r Hr. vm_compute in Hr.
  repeat (destruct Hr as [<-|Hr]; [reflexivity|]). contradiction.
Qed.

Lemma title_lookup_lists_every_row_witness :
  getitem (title_index catalog_df) "dune" = SubSeries [0; 1] /\
  getitem (title_index catalog_df) "emma" = Scalar 2 /\
  getitem (title_index catalog_df) "Emma" = KeyError.
Proof.
  split; [|split].
  - exact (title_lookup_lists_every_row catalog_df "dune" catalog_df_labels
             catalog_df_ascii).
  - exact (title_lookup_lists_every_row catalog_df "emma" catalog_df_labels
             catalog_df_ascii).
  - exact (title_lookup_lists_every_row catalog_df "Emma" catalog_df_labels
             catalog_df_ascii).
Defined.

Lemma book_list_incl names search b :
  In b (book_list names search) -> In b names.
Proof.
  assert (Hall : forall x, In x (sorted_str (unique [] names)) -> In x names).
  { intros x H. apply (Permutation_in x (sorted_str_perm _)) in H.
    now apply unique_In in H. }
  unfold book_list. destruct (negb (String.eqb search EmptyString)); [|apply Hall].
  destruct (filter (fun b0 => str_in (lower search) (lower b0))
              (sorted_str (unique [] names))) as [|f fs] eqn:Ef; [apply Hall|].
  rewrite <- Ef. intros H. apply filter_In in H. apply Hall. tauto.
Qed.

Lemma strings_of_In l names b :
  strings_of l = Some names -> In b names -> In (Str b) l.
Proof.
  revert names; induction l as [|c t IH]; intros names; simpl.
  - intros H; injection H as <-. contradiction.
  - destruct c as [|s|q|n]; try discriminate.
    destruct (strings_of t) as [n|]; [|discriminate]. simpl.
    intros H; injection H as <-. intros [->|Hb]; [now left|right; eauto].
Qed.

Lemma recommend_found df cosine_sim indices min_rating selected_book :
  contains indices (lower selected_book) = true ->
  recommend df cosine_sim indices min_rating selected_book <> NotFound.
Proof.
  intros H. unfold recommend. rewrite H. simpl negb. cbv iota.
  destruct (getitem indices (lower selected_book)) as [|i|l]; try discriminate.
  - destruct (nth_error cosine_sim i); [|discriminate].
    destruct (rated df min_rating _); discriminate.
  - destruct (forallb _ l); discriminate.
Qed.

(** Every title that the select box offers is a label of the index: after
    choosing from the box, the button never answers "Book not found." *)
Theorem offered_title_is_found df names cosine_sim min_rating search b :
  NoDup (index df) ->
  book_names df = Some names ->
  In b (book_list names search) ->
  recommend df cosine_sim (title_index df) min_rating b <> NotFound.
Proof.
  intros Hnd Hnames Hb. apply recommend_found.
  rewrite (contains_rows df _ Hnd). apply existsb_exists.
  apply book_list_incl in Hb.
  apply (strings_of_In _ _ _ Hnames) in Hb.
  apply in_map_iff in Hb. destruct Hb as (r & Hr & Hin).
  exists r. split; [exact Hin|]. rewrite Hr. simpl. apply String.eqb_refl.
Qed.

Lemma offered_title_is_found_witness :
  book_list ["Alpha"; "Beta"; "Gamma"] "ET" = ["Beta"] /\
  recommend shelf_df shelf_sim (title_index shelf_df) 1 "Beta" <> NotFound.
Proof.
  split; [reflexivity|].
  apply (offered_title_is_found shelf_df ["Alpha"; "Beta"; "Gamma"] shelf_sim 1 "ET").
  - exact shelf_df_labels.
  - reflexivity.
  - simpl. tauto.
Defined.

Lemma getitem_several indices key :
  2 <= List.length (filter (fun e => cell_eqb (fst e) (Str key)) indices) ->
  exists l, getitem indices key = SubSeries l /\ contains indices key = true.
Proof.
  unfold getitem, contains. intros H.
  destruct (filter (fun e => cell_eqb (fst e) (Str key)) indices) as [|e [|e' t]] eqn:E;
    simpl in H; try lia.
  eexists. split; [reflexivity|]. apply existsb_exists. exists e.
  apply (filter_In (fun e => cell_eqb (fst e) (Str key))). rewrite E. now left.
Qed.

(** When two rows of the frame carry the same lower-cased title, pressing
    the button for that title ends in an exception, whatever the matrix and
    the minimum rating. *)
Theorem shared_title_raises df l1 a l2 b l3 ta tb cosine_sim min_rating :
  NoDup (index df) ->
  rows df = l1 ++ a :: l2 ++ b :: l3 ->
  snd a "Book Name" = Str ta ->
  snd b "Book Name" = Str tb ->
  lower ta = lower tb ->
  exists exn,
    recommend df cosine_sim (title_index df) min_rating ta = Failed exn /\
    recommend_by_book df cosine_sim (title_index df) min_rating ta true
    = ([st_subheader "Recommend by Book"], Raised exn).
Proof.
  intros Hnd Hrows Ha Hb Hl.
  destruct (getitem_several (title_index df) (lower ta)) as (l & Hg & Hc).
  { rewrite (title_index_keeps_every_row df Hnd). unfold index.
    rewrite <- (length_map snd), (lookup_values (fun r => str_lower (snd r "Book Name"))).
    rewrite length_map, Hrows.
    rewrite filter_app. simpl. rewrite Ha. simpl. rewrite String.eqb_refl.
    rewrite filter_app. simpl. rewrite Hb. simpl. rewrite <- Hl, String.eqb_refl.
    rewrite length_app. simpl. rewrite length_app. simpl. lia. }
  assert (E : exists exn, recommend df cosine_sim (title_index df) min_rating ta
                          = Failed exn).
  { unfold recommend. rewrite Hc, Hg. simpl negb. cbv iota.
    destruct (forallb _ l); eauto. }
  destruct E as [exn E]. exists exn. split; [exact E|].
  unfold recommend_by_book. simpl negb. cbv iota. now rewrite E.
Qed.

Lemma shared_title_raises_witness :
  exists exn,
    recommend catalog_df shelf_sim (title_index catalog_df) 1 "Dune" = Failed exn /\
    recommend_by_book catalog_df shelf_sim (title_index catalog_df) 1 "Dune" true
    = ([st_subheader "Recommend by Book"], Raised exn).
Proof.
  destruct (rows catalog_df) as [|a [|b l3]] eqn:E; try discriminate E.
  apply (shared_title_raises catalog_df [] a [] b l3 "Dune" "DUNE").
  - exact catalog_df_labels.
  - exact E.
  - injection E as <- _ _. reflexivity.
  - injection E as _ <- _. reflexivity.
  - reflexivity.
Defined.

(** ** What the button returns *)

Lemma rated_some df min_rating l passed :
  rated df min_rating l = Some passed ->
  passed = filter (fun e => rating_ok df min_rating (fst e)) l.
Proof.
  revert passed; induction l as [|e t IH]; simpl; intros passed H.
  - now injection H as <-.
  - unfold rating_ok at 1. destruct (loc df (fst e)) as [r|]; [|discriminate].
    destruct (rated df min_rating t) as [t'|]; [|discriminate].
    injection H as <-. rewrite (IH t' eq_refl).
    now destruct (cell_ge (r "Rating") min_rating).
Qed.

Lemma NoDup_map_filter {A B : Type} (g : A -> B) (f : A -> bool) (l : list A) :
  NoDup (map g l) -> NoDup (map g (filter f l)).
Proof.
  induction l as [|a l IH]; simpl; intros H; [constructor|].
  inversion H as [|x y Hx Hy]; subst.
  destruct (f a); [|now apply IH]. simpl. constructor; [|now apply IH].
  intros Hin. apply Hx. apply in_map_iff in Hin. destruct Hin as (z & Hz & Hin).
  apply filter_In in Hin. apply in_map_iff. exists z. tauto.
Qed.

Lemma NoDup_map_firstn {A B : Type} (g : A -> B) (n : nat) (l : list A) :
  NoDup (map g l) -> NoDup (map g (firstn n l)).
Proof.
  intros H. rewrite <- (firstn_skipn n l), map_app in H.
  now apply NoDup_app_remove_r in H.
Qed.

Lemma NoDup_map_tl {A B : Type} (g : A -> B) (l : list A) :
  NoDup (map g l) -> NoDup (map g (tl l)).
Proof.
  destruct l as [|a l]; simpl; [auto|]. intros H. now inversion H.
Qed.

Lemma In_firstn {A : Type} (n : nat) (l : list A) (x : A) :
  In x (firstn n l) -> In x l.
Proof.
  intros H. rewrite <- (firstn_skipn n l). apply in_or_app. now left.
Qed.

Lemma In_tl {A : Type} (l : list A) (x : A) : In x (tl l) -> In x l.
Proof. destruct l; simpl; tauto. Qed.

Lemma recommend_results_inv df cosine_sim indices min_rating selected_book idx results :
  recommend df cosine_sim indices min_rating selected_book = Results idx results ->
  exists scores,
    nth_error cosine_sim idx = Some scores /\
    results = firstn 5 (filter (fun e => rating_ok df min_rating (fst e))
                               (tl (sorted_desc (enumerate scores)))).
Proof.
  unfold recommend.
  destruct (negb (contains indices (lower selected_book))); [discriminate|].
  destruct (getitem indices (lower selected_book)) as [|i|l]; try discriminate.
  - destruct (nth_error cosine_sim i) as [scores|] eqn:Es; [|discriminate].
    destruct (rated df min_rating (tl (sorted_desc (enumerate scores)))) as [p|] eqn:Er;
      [|discriminate].
    intros H. injection H as <- <-. exists scores. split; [exact Es|].
    now rewrite (rated_some _ _ _ _ Er).
  - destruct (forallb _ l); discriminate.
Qed.

(** Whatever the inputs, a list of recommendations has at most five
    entries, names no row twice, and each entry is a row of the frame with a
    rating of at least [min_rating], paired with its score in the matrix row
    of the seed. *)
Theorem recommend_results_are_rows
    df cosine_sim indices min_rating selected_book idx results :
  recommend df cosine_sim indices min_rating selected_book = Results idx results ->
  List.length results <= 5 /\
  NoDup (map fst results) /\
  exists scores,
    nth_error cosine_sim idx = Some scores /\
    Forall (fun e => nth_error scores (fst e) = Some (snd e) /\
                     rating_ok df min_rating (fst e) = true) results.
Proof.
  intros H. destruct (recommend_results_inv _ _ _ _ _ _ _ H) as (scores & Hs & ->).
  split; [rewrite length_firstn; apply Nat.le_min_l|]. split.
  - apply NoDup_map_firstn, NoDup_map_filter, NoDup_map_tl.
    eapply Permutation_NoDup;
      [apply Permutation_map; symmetry; apply sorted_desc_perm|].
    unfold enumerate. rewrite map_fst_combine_seq. apply seq_NoDup.
  - exists scores. split; [exact Hs|]. apply Forall_forall. intros [i s] He.
    apply In_firstn in He. apply filter_In in He. destruct He as [He Hok].
    split; [|exact Hok]. apply In_tl in He.
    apply (Permutation_in _ (sorted_desc_perm (enumerate scores))) in He.
    now apply In_enumerate.
Qed.

Lemma recommend_results_are_rows_witness :
  List.length [(1, 0%Q)] <= 5 /\
  NoDup (map fst [(1, 0%Q)]) /\
  exists scores,
    nth_error shelf_sim 0 = Some scores /\
    Forall (fun e => nth_error scores (fst e) = Some (snd e) /\
                     rating_ok shelf_df 3 (fst e) = true) [(1, 0%Q)].
Proof.
  apply (recommend_results_are_rows shelf_df shelf_sim shelf_index 3 "ALPHA" 0).
  reflexivity.
Defined.

Lemma filter_none {A : Type} (f : A -> bool) (l : list A) :
  (forall x, In x l -> f x = false) -> filter f l = [].
Proof.
  induction l as [|a l IH]; simpl; intros H; [reflexivity|].
  rewrite (H a (or_introl eq_refl)). apply IH. intros x Hx. apply H. now right.
Qed.

Lemma recommend_by_book_empty df cosine_sim indices min_rating selected_book idx :
  recommend df cosine_sim indices min_rating selected_book = Results idx [] ->
  recommend_by_book df cosine_sim indices min_rating selected_book true
  = ([st_subheader "Recommend by Book";
      st_warning "No similar books found with this rating filter."], Returned).
Proof.
  intros E. unfold recommend_by_book. simpl negb. cbv iota. now rewrite E.
Qed.

(** When no book of the frame has a rating of at least [min_rating], the
    button shows the warning and no table, and the run returns. *)
Theorem no_rating_passes_warns
    df cosine_sim indices min_rating selected_book idx scores :
  getitem indices (lower selected_book) = Scalar idx ->
  nth_error cosine_sim idx = Some scores ->
  (forall i, i < List.length scores -> loc df i <> None) ->
  (forall i, i < List.length scores -> rating_ok df min_rating i = false) ->
  recommend_by_book df cosine_sim indices min_rating selected_book true
  = ([st_subheader "Recommend by Book";
      st_warning "No similar books found with this rating filter."], Returned).
Proof.
  intros Hg Hs Hl Hnone. apply (recommend_by_book_empty _ _ _ _ _ idx).
  rewrite (recommend_resolved _ _ _ min_rating _ _ _ Hg Hs Hl).
  rewrite filter_none; [reflexivity|].
  intros e He. apply Hnone. apply enumerate_fst. apply In_tl in He.
  now apply (Permutation_in _ (sorted_desc_perm (enumerate scores))) in He.
Qed.

Lemma no_rating_passes_warns_witness :
  recommend_by_book shelf_df shelf_sim shelf_index 5 "Alpha" true
  = ([st_subheader "Recommend by Book";
      st_warning "No similar books found with this rating filter."], Returned).
Proof.
  apply (no_rating_passes_warns shelf_df shelf_sim shelf_index 5 "Alpha" 0 [1; 0; 0.8]%Q).
  - reflexivity.
  - reflexivity.
  - intros i Hi. simpl in Hi. destruct i as [|[|[|i]]]; [discriminate ..|lia].
  - intros i Hi. simpl in Hi. destruct i as [|[|[|i]]]; [reflexivity ..|lia].
Defined.

(** With a single book in the catalog (a matrix row of one score) there is
    nothing to recommend: the button shows the warning, whatever the rating
    filter. *)
Theorem single_book_warns df cosine_sim indices min_rating selected_book idx scores :
  getitem indices (lower selected_book) = Scalar idx ->
  nth_error cosine_sim idx = Some scores ->
  List.length scores <= 1 ->
  recommend_by_book df cosine_sim indices min_rating selected_book true
  = ([st_subheader "Recommend by Book";
      st_warning "No similar books found with this rating filter."], Returned).
Proof.
  intros Hg Hs Hlen. apply (recommend_by_book_empty _ _ _ _ _ idx).
  unfold recommend. rewrite (getitem_contains _ _ _ Hg), Hg, Hs. simpl negb. cbv iota zeta.
  destruct scores as [|s [|s' t]]; simpl in Hlen; [reflexivity|reflexivity|lia].
Qed.

Lemma single_book_warns_witness :
  recommend_by_book bare_df [[1%Q]] (title_index bare_df) 1 "Alpha" true
  = ([st_subheader "Recommend by Book";
      st_warning "No similar books found with this rating filter."], Returned).
Proof.
  apply (single_book_warns bare_df [[1%Q]] (title_index bare_df) 1 "Alpha" 0 [1%Q]).
  - reflexivity.
  - reflexivity.
  - simpl. lia.
Defined.

(** ** More on cleaning *)

Lemma frame_eta df : {| columns := columns df; rows := rows df |} = df.
Proof. now destruct df. Qed.

Lemma combine_fst_snd {A B : Type} (l : list (A * B)) :
  combine (map fst l) (map snd l) = l.
Proof.
  induction l as [|[a b] l IH]; simpl; [reflexivity|]. now rewrite IH.
Qed.

Lemma keep_first_id subset seen l :
  distinct_on subset l ->
  Forall (fun r => existsb (same_on subset (snd r)) seen = false) l ->
  keep_first subset seen l = l.
Proof.
  unfold distinct_on. intros Hd; revert seen.
  induction Hd as [|a t Ha Ht IH]; intros seen Hs; simpl; [reflexivity|].
  inversion Hs as [|x y Hx Hy]; subst. rewrite Hx. f_equal. apply IH.
  rewrite Forall_forall in *. intros r Hr. simpl.
  rewrite (Hy r Hr), orb_false_r, same_on_sym. now apply Ha.
Qed.

(** Cleaning a cleaned frame changes nothing: no row is dropped and no label
    is changed the second time. *)
Theorem clean_is_idempotent df : clean (clean df) = clean df.
Proof.
  destruct (clean_spec df) as (Hi & Hd & Hr).
  set (c := clean df) in *. unfold clean at 1.
  assert (E1 : dropna "Rating" c = c).
  { unfold dropna. rewrite forallb_filter_id; [apply frame_eta|].
    apply forallb_forall. intros r Hin. rewrite Forall_forall in Hr.
    destruct (Hr r Hin) as [Hna _]. now rewrite Hna. }
  rewrite E1.
  assert (E2 : drop_duplicates ["Book Name"; "Author"] c = c).
  { unfold drop_duplicates. rewrite keep_first_id; [apply frame_eta|exact Hd|].
    apply Forall_forall. reflexivity. }
  rewrite E2. unfold reset_index. unfold index in Hi. rewrite <- Hi.
  rewrite combine_fst_snd. apply frame_eta.
Qed.

Lemma cell_eqb_refl c : cell_eqb c c = true.
Proof.
  destruct c as [|s|q|n]; simpl;
    [reflexivity|apply String.eqb_refl|apply Qeq_bool_refl|now destruct n].
Qed.

Lemma same_on_refl subset a : same_on subset a a = true.
Proof.
  unfold same_on. induction subset as [|c s IH]; simpl; [reflexivity|].
  now rewrite cell_eqb_refl.
Qed.

Lemma keep_first_represents subset seen l r :
  In r l ->
  existsb (same_on subset (snd r)) seen = true \/
  exists r', In r' (keep_first subset seen l) /\
             same_on subset (snd r) (snd r') = true.
Proof.
  revert seen; induction l as [|a t IH]; intros seen Hin; simpl; [contradiction|].
  destruct (existsb (same_on subset (snd a)) seen) eqn:E.
  - destruct Hin as [->|Hin]; [now left|now apply IH].
  - destruct Hin as [->|Hin].
    + right. exists r. split; [now left|apply same_on_refl].
    + destruct (IH (snd a :: seen) Hin) as [H|(r' & Hr' & Hs)].
      * simpl in H. apply orb_true_iff in H. destruct H as [H|H]; [|now left].
        right. exists a. split; [now left|exact H].
      * right. exists r'. split; [now right|exact Hs].
Qed.

Lemma Forall2_In_left {A B : Type} (P : A -> B -> Prop) l l' a :
  Forall2 P l l' -> In a l -> exists b, In b l' /\ P a b.
Proof.
  induction 1 as [|x y l l' Hxy _ IH]; simpl; [contradiction|].
  intros [->|Hin]; [exists y; tauto|].
  destruct (IH Hin) as (b & Hb & Hp). exists b. tauto.
Qed.

(** No rated pair is lost: for every row of the merged frame whose rating
    parses, the frame that [load_data] returns has a row with the same title
    and author, whatever the other cells of the row (a missing review count
    included). *)
Theorem rated_pair_survives parse_number merged df reviews_col rating_col m :
  load_data parse_number merged = Loaded df reviews_col ->
  detect "rating" merged = Some rating_col ->
  In m (rows merged) ->
  to_numeric parse_number (snd m rating_col) <> NaN ->
  exists r, In r (rows df) /\
            same_on ["Book Name"; "Author"] (snd m) (snd r) = true.
Proof.
  intros H Hd Hm Hrated.
  destruct (load_data_inv _ _ _ _ H) as (c & raw & Hd' & Hc & ->).
  rewrite Hd in Hd'. injection Hd' as <-.
  destruct (Forall2_In_left _ _ _ m Hc Hm) as (r0 & Hr0 & _ & Hrat & Ht & Ha).
  assert (Hkept : In r0 (filter (fun r => negb (isna (snd r "Rating"))) (rows raw))).
  { apply filter_In. split; [exact Hr0|]. unfold row in *. rewrite Hrat.
    destruct (to_numeric parse_number (snd m rating_col)); [contradiction|reflexivity ..]. }
  destruct (keep_first_represents ["Book Name"; "Author"] [] _ r0 Hkept)
    as [Hf|(r' & Hr' & Hs)]; [discriminate|].
  assert (Hin : In (snd r') (map snd (rows (clean raw)))).
  { unfold clean. rewrite reset_index_rows. apply in_map. exact Hr'. }
  apply in_map_iff in Hin. destruct Hin as (r'' & Heq & Hin).
  exists r''. split; [exact Hin|]. rewrite Heq.
  unfold same_on in *. simpl in *. unfold row in *. now rewrite <- Ht, <- Ha.
Qed.

Lemma rated_pair_survives_witness :
  exists r, In r (rows catalog_df) /\
            same_on ["Book Name"; "Author"]
                    (book "Dune" "Herbert" (Num 3.0) (Str "sand again") (Num 8)) (snd r) = true.
Proof.
  apply (rated_pair_survives parse_digits catalog catalog_df (Some "Number of Reviews")
           "Rating_x" (3, book "Dune" "Herbert" (Num 3.0) (Str "sand again") (Num 8))).
  - reflexivity.
  - reflexivity.
  - simpl. tauto.
  - discriminate.
Defined.

(** ** The review column *)

Lemma find_app_miss {A : Type} (f : A -> bool) (l : list A) (x : A) :
  f x = false -> find f (l ++ [x]) = find f l.
Proof.
  intros H. induction l as [|a l IH]; simpl; [now rewrite H|].
  now destruct (f a).
Qed.

Lemma detect_assign word name f df :
  str_in word (lower name) = false ->
  detect word (assign name f df) = detect word df.
Proof.
  intros H. unfold detect, assign. simpl.
  destruct (existsb (String.eqb name) (columns df)); [reflexivity|].
  now apply find_app_miss.
Qed.

Lemma assign_has_column name f df :
  existsb (String.eqb name) (columns (assign name f df)) = true.
Proof.
  unfold assign. simpl.
  destruct (existsb (String.eqb name) (columns df)) eqn:E; [exact E|].
  rewrite existsb_app. simpl. now rewrite String.eqb_refl, orb_true_r.
Qed.

Lemma assign_other_column name other f df :
  String.eqb other name = false ->
  existsb (String.eqb other) (columns (assign name f df))
  = existsb (String.eqb other) (columns df).
Proof.
  intros H. unfold assign. simpl.
  destruct (existsb (String.eqb name) (columns df)); [reflexivity|].
  rewrite existsb_app. simpl. now rewrite H, !orb_false_r.
Qed.

Lemma detect_truthy word df :
  str_in word EmptyString = false ->
  truthy (detect word df) = match detect word df with Some _ => true | None => false end.
Proof.
  intros Hw. destruct (detect word df) as [c|] eqn:E; [|reflexivity].
  unfold detect in E. apply find_some in E. destruct E as [_ E]. simpl.
  destruct c; [|reflexivity].
  change (lower EmptyString) with EmptyString in E. congruence.
Qed.

Lemma no_reviews_column df :
  detect "review" df = None -> existsb (String.eqb "Reviews") (columns df) = false.
Proof.
  intros H. destruct (existsb (String.eqb "Reviews") (columns df)) eqn:E; [|reflexivity].
  apply existsb_exists in E. destruct E as (c & Hc & Ec).
  apply String.eqb_eq in Ec. subst c.
  unfold detect in H. apply (find_none _ _ H) in Hc. discriminate Hc.
Qed.

Lemma load_data_reviews parse_number merged df reviews_col :
  load_data parse_number merged = Loaded df reviews_col ->
  reviews_col = detect "review" merged /\
  truthy reviews_col = match reviews_col with Some _ => true | None => false end /\
  existsb (String.eqb "Reviews") (columns df) = truthy reviews_col.
Proof.
  unfold load_data. destruct (detect "rating" merged) as [rating_col|]; [|discriminate].
  cbv zeta.
  set (df1 := assign "Rating" _ merged).
  set (df2 := if truthy (detect "desc" df1) then _ else _).
  assert (E2 : detect "review" df2 = detect "review" merged).
  { transitivity (detect "review" df1); [|now apply detect_assign].
    unfold df2. destruct (truthy (detect "desc" df1));
      [destruct (detect "desc" df1); [|reflexivity]|]; now apply detect_assign. }
  pose proof (detect_truthy "review" df2 eq_refl) as Ht.
  intros H. injection H as <- <-.
  split; [exact E2|]. split; [exact Ht|].
  change (columns (clean ?x)) with (columns x).
  rewrite Ht. destruct (detect "review" df2) as [c|] eqn:Ed.
  - apply assign_has_column.
  - now apply no_reviews_column.
Qed.

(** [load_data] reports the first column of the merged frame whose name
    contains "review" in any case, never one of the columns it adds itself,
    and the frame it returns has a "Reviews" column exactly when it reports
    one. *)
Theorem reviews_column_is_reported parse_number merged df reviews_col :
  load_data parse_number merged = Loaded df reviews_col ->
  reviews_col = find (fun c => str_in "review" (lower c)) (columns merged) /\
  (In "Reviews" (columns df) <-> reviews_col <> None).
Proof.
  intros H. destruct (load_data_reviews _ _ _ _ H) as (E & Ht & Hc).
  split; [exact E|]. rewrite Ht in Hc. split.
  - intros Hin. destruct reviews_col; [discriminate|].
    assert (existsb (String.eqb "Reviews") (columns df) = true).
    { apply existsb_exists. exists "Reviews". split; [exact Hin|apply String.eqb_refl]. }
    congruence.
  - intros Hne. destruct reviews_col; [|contradiction].
    apply existsb_exists in Hc. destruct Hc as (c & Hin & Ec).
    apply String.eqb_eq in Ec. now subst c.
Qed.

Lemma reviews_column_is_reported_witness :
  Some "Number of Reviews"
  = find (fun c => str_in "review" (lower c)) (columns catalog) /\
  (In "Reviews" (columns catalog_df) <-> Some "Number of Reviews" <> None).
Proof.
  apply (reviews_column_is_reported parse_digits catalog catalog_df).
  reflexivity.
Defined.

(** The hidden gems page depends on the merged frame alone: with no column
    whose name contains "review" it shows the notice that the review count is
    not available and nothing else; with one it shows the count and the
    table. *)
Theorem hidden_gems_needs_review_column
    parse_number merged df reviews_col sort_values max_reviews min_rating :
  load_data parse_number merged = Loaded df reviews_col ->
  ((forall c, In c (columns merged) -> str_in "review" (lower c) = false) ->
   hidden_gems sort_values df reviews_col max_reviews min_rating
   = ([st_subheader "Hidden Gems";
       st_info "Review count not available in this dataset."], Returned)) /\
  ((exists c, In c (columns merged) /\ str_in "review" (lower c) = true) ->
   hidden_gems sort_values df reviews_col max_reviews min_rating
   = ([st_subheader "Hidden Gems";
       st_found (List.length (gems sort_values df max_reviews min_rating))
                min_rating max_reviews;
       st_dataframe ["Book Name"; "Author"; "Rating"; "Reviews"]
         (map (project ["Book Name"; "Author"; "Rating"; "Reviews"])
              (firstn 20 (gems sort_values df max_reviews min_rating)))], Returned)).
Proof.
  intros H. destruct (load_data_reviews _ _ _ _ H) as (E & Ht & Hc).
  unfold hidden_gems. rewrite Hc. split.
  - intros Hno. apply detect_none in Hno. rewrite Hno in E. subst reviews_col.
    reflexivity.
  - intros Hyes. apply detect_some in Hyes. destruct Hyes as [c Hyes].
    rewrite Hyes in E. subst reviews_col. rewrite Ht. reflexivity.
Qed.

Lemma hidden_gems_needs_review_column_witness :
  hidden_gems sort_behind bare_df None 50 4
  = ([st_subheader "Hidden Gems";
      st_info "Review count not available in this dataset."], Returned) /\
  hidden_gems sort_behind catalog_df (Some "Number of Reviews") 50 4.5
  = ([st_subheader "Hidden Gems";
      st_found (List.length (gems sort_behind catalog_df 50 4.5)) 4.5 50;
      st_dataframe ["Book Name"; "Author"; "Rating"; "Reviews"]
        (map (project ["Book Name"; "Author"; "Rating"; "Reviews"])
             (firstn 20 (gems sort_behind catalog_df 50 4.5)))], Returned).
Proof.
  split.
  - apply (proj1 (hidden_gems_needs_review_column parse_digits bare bare_df None
                    sort_behind 50 4 eq_refl)).
    intros c Hc. simpl in Hc.
    repeat (destruct Hc as [<-|Hc]; [reflexivity|]). contradiction.
  - apply (proj2 (hidden_gems_needs_review_column parse_digits catalog catalog_df
                    (Some "Number of Reviews") sort_behind 50 4.5 eq_refl)).
    exists "Number of Reviews". split; [simpl; tauto|reflexivity].
Defined.

(** ** The description column *)

Lemma Forall2_transport {A B : Type} (P : A -> B -> Prop) (Q : A -> Prop)
    (Q' : B -> Prop) l l' :
  (forall a b, P a b -> Q a -> Q' b) ->
  Forall2 P l l' -> Forall Q l -> Forall Q' l'.
Proof.
  intros H H2. induction H2 as [|a b l l' Hab _ IH]; intros Hq; constructor;
    inversion Hq; subst; eauto.
Qed.

Lemma assign_sets name f df :
  Forall (fun r => exists r0, snd r name = f r0) (rows (assign name f df)).
Proof.
  eapply Forall2_transport with (Q := fun _ => True);
    [|apply (assign_other name f df)|apply Forall_forall; auto].
  simpl. intros a b (_ & Hb & _) _. eauto.
Qed.

Lemma assign_keeps name other f df (Q : cell -> Prop) :
  other <> name ->
  Forall (fun r => Q (snd r other)) (rows df) ->
  Forall (fun r => Q (snd r other)) (rows (assign name f df)).
Proof.
  intros Hne. apply Forall2_transport with (P := fun m r =>
    fst r = fst m /\ snd r name = f (snd m) /\ forall c, c <> name -> snd r c = snd m c);
    [|apply assign_other].
  simpl. intros a b (_ & _ & Ho) Ha. now rewrite (Ho other Hne).
Qed.

Lemma clean_keeps (Q : row -> Prop) df :
  Forall (fun r => Q (snd r)) (rows df) -> Forall (fun r => Q (snd r)) (rows (clean df)).
Proof.
  intros H. destruct (clean_spec df) as (_ & _ & Hr).
  eapply Forall_impl; [|exact Hr]. simpl. intros r [_ Hin].
  apply in_map_iff in Hin. destruct Hin as (r0 & E & Hin).
  rewrite Forall_forall in H. exact (eq_ind _ Q (H r0 Hin) _ E).
Qed.

(** With no column for the description, every row of the frame that
    [load_data] returns has the empty string as its description. *)
Lemma load_data_no_description parse_number merged df reviews_col :
  (forall c, In c (columns merged) -> str_in "desc" (lower c) = false) ->
  load_data parse_number merged = Loaded df reviews_col ->
  Forall (fun r => snd r "Description" = Str EmptyString) (rows df).
Proof.
  intros Hno. apply detect_none in Hno.
  unfold load_data. destruct (detect "rating" merged) as [rating_col|]; [|discriminate].
  cbv zeta.
  set (df1 := assign "Rating" _ merged).
  assert (E1 : detect "desc" df1 = None)
    by (unfold df1; rewrite detect_assign; [exact Hno|reflexivity]).
  rewrite E1. simpl truthy. cbv iota.
  set (df2 := assign "Description" _ df1).
  assert (H2 : Forall (fun r => snd r "Description" = Str EmptyString) (rows df2)).
  { eapply Forall_impl; [|apply assign_sets]. simpl. intros r [r0 E]. exact E. }
  intros H. injection H as <- _.
  apply (clean_keeps (fun r => r "Description" = Str EmptyString)).
  destruct (truthy (detect "review" df2)); [|exact H2].
  destruct (detect "review" df2) as [c|]; [|exact H2].
  apply (assign_keeps "Reviews" "Description" _ df2 (fun c => c = Str EmptyString));
    [discriminate|exact H2].
Qed.

Lemma empty_descriptions_raise tokens similarity df :
  tokens EmptyString = [] ->
  Forall (fun r => snd r "Description" = Str EmptyString) (rows df) ->
  build_model tokens similarity df = BuildRaised "ValueError".
Proof.
  intros Ht H. unfold build_model. cbv zeta.
  assert (E1 : forallb is_str (map (fun r => snd r "Description") (rows df)) = true).
  { apply forallb_forall. intros c Hc. apply in_map_iff in Hc.
    destruct Hc as (r & <- & Hr). rewrite Forall_forall in H. now rewrite (H r Hr). }
  assert (E2 : empty_vocabulary tokens (map (fun r => snd r "Description") (rows df))
               = true).
  { apply forallb_forall. intros c Hc. apply in_map_iff in Hc.
    destruct Hc as (r & <- & Hr). rewrite Forall_forall in H.
    now rewrite (H r Hr), Ht. }
  now rewrite E1, E2.
Qed.

(** C7, the description column.  When the merged frame has a rating column
    and no column whose name contains "desc", [load_data] returns a frame in
    which every description is the empty string; the vectorizer finds no
    term in it, [build_model] raises a ValueError, and [main] ends there,
    before it has shown anything. *)
Theorem missing_description_ends_startup
    parse_number tokens similarity sort_values merged w :
  (exists c, In c (columns merged) /\ str_in "rating" (lower c) = true) ->
  (forall c, In c (columns merged) -> str_in "desc" (lower c) = false) ->
  tokens EmptyString = [] ->
  exists df reviews_col,
    load_data parse_number merged = Loaded df reviews_col /\
    build_model tokens similarity df = BuildRaised "ValueError" /\
    main parse_number tokens similarity sort_values merged w
    = ([], Raised "ValueError").
Proof.
  intros Hr Hd Ht.
  assert (E : exists df rc, load_data parse_number merged = Loaded df rc).
  { apply detect_some in Hr. destruct Hr as [c Hr].
    unfold load_data. rewrite Hr. cbv zeta. eauto. }
  destruct E as (df & rc & E). exists df, rc. split; [exact E|].
  pose proof (empty_descriptions_raise tokens similarity df Ht
                (load_data_no_description _ _ _ _ Hd E)) as Hb.
  split; [exact Hb|]. unfold main. now rewrite E, Hb.
Qed.

Lemma missing_description_ends_startup_witness :
  exists df reviews_col,
    load_data parse_digits bare = Loaded df reviews_col /\
    build_model words (fun _ => shelf_sim) df = BuildRaised "ValueError" /\
    main parse_digits words (fun _ => shelf_sim) sort_behind bare
         (mkWidgets About 3.5 "Alpha" false 200 4.5)
    = ([], Raised "ValueError").
Proof.
  apply (missing_description_ends_startup parse_digits words (fun _ => shelf_sim)
           sort_behind bare).
  - exists "Stars Rating". split; [simpl; tauto|reflexivity].
  - intros c Hc. simpl in Hc.
    repeat (destruct Hc as [<-|Hc]; [reflexivity|]). contradiction.
  - reflexivity.
Defined.

(** ** More on hidden gems *)

Lemma gems_In sort_values df max_reviews min_rating r :
  sorts_by_rating sort_values ->
  In r (gems sort_values df max_reviews min_rating) <->
  In r (rows df) /\ is_gem max_reviews min_rating r = true.
Proof.
  intros Hs. unfold gems.
  destruct (Hs (filter (is_gem max_reviews min_rating) (rows df))) as [Hp _].
  rewrite <- filter_In. split; intros H.
  - now apply (Permutation_in r Hp).
  - now apply (Permutation_in r (Permutation_sym Hp)).
Qed.

(** The count that the page shows is the number of rows of the frame that
    pass the two thresholds, not the number displayed; the table has the
    first twenty rows of [gems] (all of them when there are fewer), and no
    row left out of the table has a higher rating than a row in it. *)
Theorem gems_table_shows_the_best sort_values df max_reviews min_rating :
  sorts_by_rating sort_values ->
  List.length (gems sort_values df max_reviews min_rating)
  = List.length (filter (is_gem max_reviews min_rating) (rows df)) /\
  List.length (firstn 20 (gems sort_values df max_reviews min_rating))
  = Nat.min 20 (List.length (gems sort_values df max_reviews min_rating)) /\
  forall a b,
    In a (firstn 20 (gems sort_values df max_reviews min_rating)) ->
    In b (skipn 20 (gems sort_values df max_reviews min_rating)) ->
    rating_ge a b.
Proof.
  intros Hs. split; [|split].
  - unfold gems. apply Permutation_length. apply Hs.
  - apply length_firstn.
  - intros a b Ha Hb.
    assert (Hnum : forall r, In r (gems sort_values df max_reviews min_rating) ->
                             is_float (snd r "Rating")).
    { intros r Hr. apply (gems_In _ _ _ _ _ Hs) in Hr. destruct Hr as [_ Hr].
      apply is_gem_within in Hr. destruct Hr as [_ Hx].
      eapply at_least_float; eauto. }
    assert (Hsorted : StronglySorted (fun a b => rating_geb a b = true)
                        (gems sort_values df max_reviews min_rating)).
    { unfold gems. apply Hs. }
    rewrite <- (firstn_skipn 20) in Hsorted.
    apply StronglySorted_app in Hsorted. destruct Hsorted as [_ Hab].
    specialize (Hab a b Ha Hb).
    apply rating_geb_float; [apply Hnum|apply Hnum|exact Hab].
    + rewrite <- (firstn_skipn 20). apply in_or_app. now left.
    + rewrite <- (firstn_skipn 20). apply in_or_app. now right.
Qed.

Lemma gems_table_shows_the_best_witness :
  List.length (gems sort_behind catalog_df 50 4.5)
  = List.length (filter (is_gem 50 4.5) (rows catalog_df)) /\
  List.length (firstn 20 (gems sort_behind catalog_df 50 4.5))
  = Nat.min 20 (List.length (gems sort_behind catalog_df 50 4.5)) /\
  forall a b,
    In a (firstn 20 (gems sort_behind catalog_df 50 4.5)) ->
    In b (skipn 20 (gems sort_behind catalog_df 50 4.5)) ->
    rating_ge a b.
Proof.
  apply (gems_table_shows_the_best sort_behind catalog_df 50 4.5).
  exact sort_behind_sorts.
Defined.

(** Loosening a threshold never removes a hidden gem: a row listed for
    [max_reviews] and [min_rating] is listed for every larger ceiling on the
    reviews and every smaller floor on the rating. *)
Theorem gems_grow_with_looser_thresholds
    sort_values df max_reviews min_rating max_reviews' min_rating' r :
  sorts_by_rating sort_values ->
  (max_reviews <= max_reviews')%Q ->
  (min_rating' <= min_rating)%Q ->
  In r (gems sort_values df max_reviews min_rating) ->
  In r (gems sort_values df max_reviews' min_rating').
Proof.
  intros Hs Hr Hm Hin.
  apply (gems_In _ _ _ _ _ Hs) in Hin. destruct Hin as [Hin Hg].
  apply (gems_In _ _ _ _ _ Hs). split; [exact Hin|].
  apply is_gem_within in Hg. apply is_gem_within.
  destruct Hg as [H1 H2]. unfold within, at_most, at_least, row in *. split.
  - destruct (snd r "Reviews"); try assumption. eapply Qle_trans; eauto.
  - destruct (snd r "Rating"); try assumption. eapply Qle_trans; eauto.
Qed.

Lemma gems_grow_with_looser_thresholds_witness :
  In (nth 2 (rows catalog_df) (0, mk_row [])) (gems sort_behind catalog_df 50 4.5) /\
  In (nth 2 (rows catalog_df) (0, mk_row [])) (gems sort_behind catalog_df 100 4).
Proof.
  assert (H : In (nth 2 (rows catalog_df) (0, mk_row []))
                 (gems sort_behind catalog_df 50 4.5)).
  { apply (gems_In _ _ _ _ _ sort_behind_sorts). split; [|reflexivity].
    simpl. tauto. }
  split; [exact H|].
  apply (gems_grow_with_looser_thresholds sort_behind catalog_df 50 4.5 100 4).
  - exact sort_behind_sorts.
  - unfold Qle; simpl; lia.
  - unfold Qle; simpl; lia.
  - exact H.
Defined.

(** With distinct row labels, the list of hidden gems names no row twice. *)
Theorem gems_list_no_row_twice sort_values df max_reviews min_rating :
  sorts_by_rating sort_values ->
  NoDup (index df) ->
  NoDup (map fst (gems sort_values df max_reviews min_rating)).
Proof.
  intros Hs Hnd. unfold gems.
  destruct (Hs (filter (is_gem max_reviews min_rating) (rows df))) as [Hp _].
  eapply Permutation_NoDup; [apply Permutation_map; symmetry; exact Hp|].
  now apply NoDup_map_filter.
Qed.

Lemma gems_list_no_row_twice_witness :
  NoDup (map fst (gems sort_behind catalog_df 50 4.5)).
Proof.
  apply (gems_list_no_row_twice sort_behind catalog_df 50 4.5).
  - exact sort_behind_sorts.
  - exact catalog_df_labels.
Defined.

Lemma recommend_excludes_dominant_seed_witness :
  exists results,
    recommend shelf_df shelf_sim shelf_index 1 "ALPHA" = Results 0 results /\
    ~ In 0 (map fst results).
Proof.
  apply (recommend_excludes_dominant_seed shelf_df shelf_sim shelf_index 1 "ALPHA"
           0 [1; 0; 0.8]%Q 1%Q).
  - reflexivity.
  - reflexivity.
  - intros i Hi. simpl in Hi. destruct i as [|[|[|i]]]; [discriminate ..|lia].
  - reflexivity.
  - intros j t Hj Ht. destruct j as [|[|[|j]]]; simpl in Ht.
    + contradiction.
    + injection Ht as <-. reflexivity.
    + injection Ht as <-. reflexivity.
    + destruct j; discriminate.
Defined.

(** C9, in float64.  For two books described as "spy thriller" the code
    computes 1.0000000000000002 for every entry of the matrix, the diagonal
    included: not 1, and above 1. *)
Lemma float_self_similarity_counterexample :
  Cosine64.cosine_similarity Cosine64.spy_thrillers
  = [[Cosine64.next_above_one; Cosine64.next_above_one];
     [Cosine64.next_above_one; Cosine64.next_above_one]] /\
  Cosine64.entry (Cosine64.cosine_similarity Cosine64.spy_thrillers) 0 0
  <> Cosine64.one /\
  PrimFloat.ltb Cosine64.one
    (Cosine64.entry (Cosine64.cosine_similarity Cosine64.spy_thrillers) 0 0) = true.
Proof.
  split; [vm_compute; reflexivity|]. split; [|vm_compute; reflexivity].
  vm_compute. intros H. discriminate H.
Qed.

(** ** Cosine similarity *)

Import Reals Lra.
Import Cosine.
Local Open Scope R_scope.

Lemma dot_comm (x y : vec) : dot x y = dot y x.
Proof.
  revert y; induction x as [|a x IH]; intros [|b y]; simpl; try reflexivity.
  rewrite IH. ring.
Qed.

Lemma dot_self_nonneg (x : vec) : 0 <= dot x x.
Proof.
  induction x as [|a x IH]; simpl; [lra|].
  pose proof (Rle_0_sqr a) as H. unfold Rsqr in H. lra.
Qed.

Lemma dot_self_zero (x : vec) : dot x x = 0 <-> zero_vector x.
Proof.
  unfold zero_vector. induction x as [|a x IH]; simpl.
  - split; [constructor|reflexivity].
  - pose proof (dot_self_nonneg x) as Hx.
    pose proof (Rle_0_sqr a) as Ha. unfold Rsqr in Ha. split.
    + intros H. assert (Ha0 : a * a = 0) by lra. assert (Hx0 : dot x x = 0) by lra.
      constructor; [|now apply IH].
      destruct (Rmult_integral _ _ Ha0); assumption.
    + intros H. inversion H as [|b l Hb Hl]; subst.
      apply IH in Hl. rewrite Hl. ring.
Qed.

Lemma dot_zero_l (x y : vec) : zero_vector x -> dot x y = 0.
Proof.
  unfold zero_vector. intros H; revert y.
  induction H as [|a x Ha Hx IH]; intros [|b y]; simpl; try reflexivity.
  rewrite IH, Ha. ring.
Qed.

Lemma dot_scale (n : R) (x y : vec) :
  n <> 0 ->
  dot (map (fun a => a / n) x) (map (fun a => a / n) y) = dot x y / (n * n).
Proof.
  intros Hn. revert y; induction x as [|a x IH]; intros [|b y]; simpl;
    try (field; exact Hn).
  rewrite IH. field. exact Hn.
Qed.

Lemma dot_mean (x y : vec) : 2 * dot x y <= dot x x + dot y y.
Proof.
  revert y; induction x as [|a x IH]; intros [|b y]; simpl.
  - lra.
  - pose proof (dot_self_nonneg y). pose proof (Rle_0_sqr b) as H1.
    unfold Rsqr in H1. lra.
  - pose proof (dot_self_nonneg x). pose proof (Rle_0_sqr a) as H1.
    unfold Rsqr in H1. lra.
  - specialize (IH y). pose proof (Rle_0_sqr (a - b)) as H1.
    unfold Rsqr in H1. lra.
Qed.

(** A scaled row has length one, or is a zero vector that was left alone. *)
Lemma normalize_row_self (x : vec) :
  (zero_vector x /\ normalize_row x = x) \/
  (~ zero_vector x /\ dot (normalize_row x) (normalize_row x) = 1).
Proof.
  unfold normalize_row. destruct (Req_dec_T (dot x x) 0) as [E|E].
  - left. split; [now apply dot_self_zero|reflexivity].
  - right. split; [now rewrite <- dot_self_zero|].
    pose proof (dot_self_nonneg x) as Hx.
    assert (Hs : sqrt (dot x x) <> 0).
    { intros H. apply sqrt_eq_0 in H; [contradiction|exact Hx]. }
    rewrite dot_scale by exact Hs. rewrite sqrt_sqrt by exact Hx.
    field. exact E.
Qed.

Lemma entry_gram (X Y : list vec) (i j : nat) (x y : vec) :
  nth_error X i = Some x -> nth_error Y j = Some y ->
  entry (gram X Y) i j = dot x y.
Proof.
  intros Hx Hy. unfold entry, gram.
  erewrite (nth_error_nth (map _ X) i []);
    [|rewrite nth_error_map, Hx; reflexivity].
  erewrite (nth_error_nth (map _ Y) j 0);
    [|rewrite nth_error_map, Hy; reflexivity].
  reflexivity.
Qed.

Lemma entry_cosine (X : list vec) (i j : nat) (x y : vec) :
  nth_error X i = Some x -> nth_error X j = Some y ->
  entry (cosine_similarity X) i j = dot (normalize_row x) (normalize_row y).
Proof.
  intros Hx Hy. unfold cosine_similarity, normalize.
  apply entry_gram; rewrite nth_error_map; [rewrite Hx|rewrite Hy]; reflexivity.
Qed.

Lemma nth_error_in_range {A : Type} (l : list A) (i : nat) :
  (i < List.length l)%nat -> exists x, nth_error l i = Some x.
Proof.
  intros H. destruct (nth_error l i) as [x|] eqn:E; [now exists x|].
  apply nth_error_None in E. lia.
Qed.

(** C8.  The matrix that [cosine_similarity] returns is symmetric. *)
Theorem cosine_similarity_symmetric (X : list vec) (i j : nat) :
  (i < List.length X)%nat -> (j < List.length X)%nat ->
  entry (cosine_similarity X) i j = entry (cosine_similarity X) j i.
Proof.
  intros Hi Hj.
  destruct (nth_error_in_range X i Hi) as [x Hx].
  destruct (nth_error_in_range X j Hj) as [y Hy].
  rewrite (entry_cosine X i j x y Hx Hy), (entry_cosine X j i y x Hy Hx).
  apply dot_comm.
Qed.

Lemma cosine_similarity_symmetric_witness :
  entry (cosine_similarity [[3; 4]; [0; 0]; [1; 0]]) 0 2
  = entry (cosine_similarity [[3; 4]; [0; 0]; [1; 0]]) 2 0.
Proof.
  apply cosine_similarity_symmetric; simpl; lia.
Defined.

(** C9.  For the row [x] of record [i]: when [x] is not the zero vector,
    [S[i][i]] is 1; when it is, [S[i][j]] is 0 for every [j]; and no entry of
    [S] is above 1. *)
Theorem cosine_self_similarity (X : list vec) (i : nat) (x : vec) :
  nth_error X i = Some x ->
  (~ zero_vector x -> entry (cosine_similarity X) i i = 1) /\
  (zero_vector x -> forall j, entry (cosine_similarity X) i j = 0) /\
  (forall j k, entry (cosine_similarity X) j k <= 1).
Proof.
  intros Hx. split; [|split].
  - intros Hnz. rewrite (entry_cosine X i i x x Hx Hx).
    destruct (normalize_row_self x) as [[Hz _]|[_ H]]; [contradiction|exact H].
  - intros Hz j.
    destruct (nth_error X j) as [y|] eqn:Hy.
    + rewrite (entry_cosine X i j x y Hx Hy).
      destruct (normalize_row_self x) as [[_ E]|[Hnz _]]; [|contradiction].
      rewrite E. now apply dot_zero_l.
    + unfold entry, cosine_similarity, gram.
      erewrite (nth_error_nth (map _ (normalize X)) i []);
        [|rewrite nth_error_map; unfold normalize; rewrite nth_error_map, Hx; reflexivity].
      apply nth_overflow. rewrite length_map. unfold normalize. rewrite length_map.
      now apply nth_error_None.
  - intros j k.
    destruct (nth_error X j) as [u|] eqn:Hu.
    + destruct (nth_error X k) as [v|] eqn:Hv.
      * rewrite (entry_cosine X j k u v Hu Hv).
        pose proof (dot_mean (normalize_row u) (normalize_row v)) as Hm.
        assert (Hone : forall w, dot (normalize_row w) (normalize_row w) <= 1).
        { intros w. destruct (normalize_row_self w) as [[Hz E]|[_ E]].
          - rewrite E. apply dot_self_zero in Hz. lra.
          - lra. }
        pose proof (Hone u). pose proof (Hone v). lra.
      * unfold entry, cosine_similarity, gram.
        erewrite (nth_error_nth (map _ (normalize X)) j []);
          [|rewrite nth_error_map; unfold normalize; rewrite nth_error_map, Hu; reflexivity].
        rewrite nth_overflow; [lra|].
        rewrite length_map. unfold normalize. rewrite length_map.
        now apply nth_error_None.
    + unfold entry.
      rewrite (nth_overflow (cosine_similarity X)); [destruct k; simpl; lra|].
      unfold cosine_similarity, gram, normalize. rewrite !length_map.
      now apply nth_error_None.
Qed.

Lemma cosine_self_similarity_witness :
  entry (cosine_similarity [[3; 4]; [0; 0]; [1; 0]]) 0 0 = 1 /\
  (forall j, entry (cosine_similarity [[3; 4]; [0; 0]; [1; 0]]) 1 j = 0).
Proof.
  split.
  - apply (cosine_self_similarity [[3; 4]; [0; 0]; [1; 0]] 0 [3; 4]); [reflexivity|].
    intros H. inversion H; lra.
  - apply (cosine_self_similarity [[3; 4]; [0; 0]; [1; 0]] 1 [0; 0]); [reflexivity|].
    repeat constructor.
Defined.

(** ** More on cosine similarity *)

Lemma entry_cosine_outside (X : list vec) (j k : nat) :
  nth_error X j = None \/ nth_error X k = None ->
  entry (cosine_similarity X) j k = 0.
Proof.
  intros H. unfold entry.
  destruct (nth_error X j) as [u|] eqn:Hu.
  - destruct H as [H|H]; [discriminate|].
    unfold cosine_similarity, gram.
    erewrite (nth_error_nth (map _ (normalize X)) j []);
      [|rewrite nth_error_map; unfold normalize; rewrite nth_error_map, Hu; reflexivity].
    apply nth_overflow. rewrite length_map. unfold normalize. rewrite length_map.
    now apply nth_error_None.
  - rewrite (nth_overflow (cosine_similarity X)); [now destruct k|].
    unfold cosine_similarity, gram, normalize. rewrite !length_map.
    now apply nth_error_None.
Qed.

Lemma dot_nonneg (x y : vec) :
  Forall (fun a => 0 <= a) x -> Forall (fun a => 0 <= a) y -> 0 <= dot x y.
Proof.
  intros Hx; revert y. induction Hx as [|a x Ha Hx IH]; intros y Hy; simpl; [lra|].
  destruct Hy as [|b y Hb Hy]; [lra|].
  specialize (IH y Hy). pose proof (Rmult_le_pos a b Ha Hb). lra.
Qed.

Lemma normalize_row_nonneg (x : vec) :
  Forall (fun a => 0 <= a) x -> Forall (fun a => 0 <= a) (normalize_row x).
Proof.
  intros Hx. unfold normalize_row.
  destruct (Req_dec_T (dot x x) 0) as [E|E]; [exact Hx|].
  assert (Hs : 0 < sqrt (dot x x)).
  { apply sqrt_lt_R0. pose proof (dot_self_nonneg x). lra. }
  apply Forall_map. eapply Forall_impl; [|exact Hx]. simpl. intros a Ha.
  unfold Rdiv. apply Rmult_le_pos; [exact Ha|].
  left. now apply Rinv_0_lt_compat.
Qed.

(** When no weight of the tf-idf matrix is negative, no entry of the
    similarity matrix is. *)
Theorem cosine_similarity_nonnegative (X : list vec) (j k : nat) :
  (forall x, In x X -> Forall (fun a => 0 <= a) x) ->
  0 <= entry (cosine_similarity X) j k.
Proof.
  intros H.
  destruct (nth_error X j) as [u|] eqn:Hu;
    [|rewrite entry_cosine_outside; [lra|now left]].
  destruct (nth_error X k) as [v|] eqn:Hv;
    [|rewrite entry_cosine_outside; [lra|now right]].
  rewrite (entry_cosine X j k u v Hu Hv).
  apply dot_nonneg; apply normalize_row_nonneg; apply H; eapply nth_error_In; eauto.
Qed.

Lemma cosine_similarity_nonnegative_witness :
  0 <= entry (cosine_similarity [[3; 4]; [0; 0]; [1; 0]]) 0 2.
Proof.
  apply cosine_similarity_nonnegative.
  intros x [<-|[<-|[<-|[]]]]; repeat constructor; lra.
Defined.

(** Two records with the same vector, not the zero vector, have similarity
    1: the score of the other record ties with the record's own score. *)
Theorem same_vector_scores_one (X : list vec) (i j : nat) (x : vec) :
  nth_error X i = Some x ->
  nth_error X j = Some x ->
  ~ zero_vector x ->
  entry (cosine_similarity X) i j = 1 /\
  entry (cosine_similarity X) i j = entry (cosine_similarity X) i i.
Proof.
  intros Hi Hj Hnz.
  rewrite (entry_cosine X i j x x Hi Hj), (entry_cosine X i i x x Hi Hi).
  destruct (normalize_row_self x) as [[Hz _]|[_ H]]; [contradiction|].
  split; [exact H|reflexivity].
Qed.

Lemma same_vector_scores_one_witness :
  entry (cosine_similarity [[3; 4]; [3; 4]]) 1 0 = 1 /\
  entry (cosine_similarity [[3; 4]; [3; 4]]) 1 0
  = entry (cosine_similarity [[3; 4]; [3; 4]]) 1 1.
Proof.
  apply (same_vector_scores_one [[3; 4]; [3; 4]] 1 0 [3; 4]).
  - reflexivity.
  - reflexivity.
  - intros H. inversion H; lra.
Defined.
